(** * addons-frontend: the AddonReview form and the ErrorPage boundary

    A shallow embedding of the two React components of the repository,
    [AddonReviewBase] (src/amo/components/AddonReview/index.js) and
    [ErrorPageBase], together with the properties of their handlers.

    JavaScript values are a small tagged union, objects are finite maps
    from property names to values, and every call that leaves the
    component (redux dispatches, the review API, the local store, the DOM
    event) is recorded in a chronological trace of the world. *)

From Stdlib Require Import ZArith String List Bool Lia.
From stdpp Require Import base option gmap strings list pretty sorting.

Local Open Scope string_scope.
Local Open Scope Z_scope.
Local Open Scope list_scope.

(** ** JavaScript values and objects *)

(** The primitive values the components handle.  Numbers are the integers
    the review model uses (ids, ratings, status codes); [JRef] is a
    reference to an object owned by a collaborator (the API state, the
    error handler, an [Error] instance). *)
Inductive jsval : Type :=
  | JUndefined
  | JNull
  | JBool (b : bool)
  | JNum (n : Z)
  | JStr (s : string)
  | JRef (h : positive).

#[global] Instance jsval_eq_dec : EqDecision jsval.
Proof. solve_decision. Defined.

(** [ToBoolean]: what [if (v)], [!v], [v || w] and [v && w] test. *)
Definition truthy (v : jsval) : bool :=
  match v with
  | JUndefined | JNull => false
  | JBool b => b
  | JNum n => negb (Z.eqb n 0)
  | JStr s => negb (String.eqb s EmptyString)
  | JRef _ => true
  end.

(** [a || b] *)
Definition js_or (a b : jsval) : jsval := if truthy a then a else b.

(** [a && b] *)
Definition js_and (a b : jsval) : jsval := if truthy a then b else a.

(** [a > n] for a numeric literal [n], on the values a rating takes (a
    number, null or undefined): [undefined > n] is false, and so is
    [null > n] for a positive [n]. *)
Definition js_gt (a : jsval) (n : Z) : jsval :=
  match a with
  | JNum m => JBool (Z.ltb n m)
  | _ => JBool false
  end.

(** String conversion inside a template literal. *)
Definition to_string (v : jsval) : string :=
  match v with
  | JUndefined => "undefined"
  | JNull => "null"
  | JBool true => "true"
  | JBool false => "false"
  | JNum n => pretty n
  | JStr s => s
  | JRef _ => "[object Object]"
  end.

(** A plain object: property name to value.  A property may be present
    with the value [undefined], as in [{ body: undefined }]. *)
Abbreviation obj := (gmap string jsval).

(** Property read [o.k]: an absent property reads as [undefined]. *)
Definition get (o : obj) (k : string) : jsval := default JUndefined (o !! k).

(** Object spread [{ ...a, ...b }]: the properties of [b] win. *)
Definition spread (a b : obj) : obj := b ∪ a.

(** ** Errors *)

Inductive JsError : Type :=
  | InvariantViolation (message : string)
  | TypeError (message : string)
  | UnexpectedReviewProperty (review : option obj)
  | Rejection (reason : jsval).

Inductive Result (A : Type) : Type :=
  | Ok (a : A)
  | Throw (e : JsError).
Arguments Ok {A} a.
Arguments Throw {A} e.

(** ** The world outside the component *)

(** The calls a component makes to its collaborators, in the order they
    happen. *)
Inductive Event : Type :=
  | EvPreventDefault
  | EvStopPropagation
  | EvFocusTextarea
  | EvLogDebug (message : string) (data : obj)
  | EvLogError (message : string) (error : jsval)
  | EvSetDenormalizedReview (review : obj)
  | EvUpdateReviewText (params : obj)
  | EvReviewSubmitted
  | EvRefreshAddon (params : obj)
  | EvLocalLoad (id : string)
  | EvLocalSave (id : string) (data : obj)
  | EvLocalClear (id : string)
  | EvLoadErrorPage (error : jsval).

#[global] Instance Event_eq_dec : EqDecision Event.
Proof. solve_decision. Defined.

(** The closure handed to [debounce] in [onBodyInput]:
    [(state) => { this.localState.save(state); }], with the captured
    [this.localState] made explicit. *)
Inductive Callback : Type :=
  | SaveStateTo (id : string).

(** A pending trailing call of a debounced function. *)
Record Timeout : Type := mkTimeout {
  owner : nat;
  deadline : Z;
  callback : Callback;
  argument : obj;
}.

Record World : Type := mkWorld {
  storage : gmap string obj;
  pending : list Timeout;
  nextDebounced : nat;
  now : Z;
  handled : gmap positive jsval;
  trace : list Event;
}.

Definition initial_world : World :=
  {| storage := ∅; pending := []; nextDebounced := 0%nat; now := 0;
     handled := ∅; trace := [] |}.

(** ** Computations: state passing with exceptions *)

Definition M (A : Type) : Type := World → Result A * World.

Definition ret {A} (a : A) : M A := λ w, (Ok a, w).

Definition bind {A B} (m : M A) (k : A → M B) : M B :=
  λ w, match m w with
       | (Ok a, w') => k a w'
       | (Throw e, w') => (Throw e, w')
       end.

Definition throw {A} (e : JsError) : M A := λ w, (Throw e, w).

Notation "x ←' m ; k" := (bind m (λ x, k))
  (at level 100, m at next level, right associativity).
Notation "m ;;' k" := (bind m (λ _, k))
  (at level 100, right associativity).

Definition set_trace (w : World) (t : list Event) : World :=
  {| storage := storage w; pending := pending w;
     nextDebounced := nextDebounced w; now := now w;
     handled := handled w; trace := t |}.

Definition set_storage (w : World) (s : gmap string obj) : World :=
  {| storage := s; pending := pending w;
     nextDebounced := nextDebounced w; now := now w;
     handled := handled w; trace := trace w |}.

Definition set_pending (w : World) (p : list Timeout) : World :=
  {| storage := storage w; pending := p;
     nextDebounced := nextDebounced w; now := now w;
     handled := handled w; trace := trace w |}.

Definition set_nextDebounced (w : World) (n : nat) : World :=
  {| storage := storage w; pending := pending w;
     nextDebounced := n; now := now w;
     handled := handled w; trace := trace w |}.

Definition set_now (w : World) (t : Z) : World :=
  {| storage := storage w; pending := pending w;
     nextDebounced := nextDebounced w; now := t;
     handled := handled w; trace := trace w |}.

Definition set_handled (w : World) (h : gmap positive jsval) : World :=
  {| storage := storage w; pending := pending w;
     nextDebounced := nextDebounced w; now := now w;
     handled := h; trace := trace w |}.

Definition emit (e : Event) : M unit :=
  λ w, (Ok tt, set_trace w (trace w ++ [e])).

(** [invariant(value, message)] of the invariant package: throws when the
    value is missing, and hands it back otherwise. *)
Definition invariant {A} (value : option A) (message : string) : M A :=
  match value with
  | Some a => ret a
  | None => throw (InvariantViolation message)
  end.

(** ** core/localState *)

Module LocalState.

(** Modelled from the spec: core/localState (the LocalState class and its
    default creator) is not among the sources.  Per the spec it is a
    key-value persistence keyed by an id, mapping to the last saved
    snapshot: [load] yields the stored snapshot or null, [save]
    overwrites the entry, [clear] deletes it.  Each operation returns a
    promise; its effect on the store is taken at the call. *)
Record t : Type := create { id : string }.

Definition load (ls : t) : M (option obj) :=
  emit (EvLocalLoad (id ls)) ;;'
  λ w, (Ok (storage w !! id ls), w).

Definition save (ls : t) (data : obj) : M unit :=
  emit (EvLocalSave (id ls) data) ;;'
  λ w, (Ok tt, set_storage w (<[id ls := data]> (storage w))).

Definition clear (ls : t) : M unit :=
  emit (EvLocalClear (id ls)) ;;'
  λ w, (Ok tt, set_storage w (delete (id ls) (storage w))).

End LocalState.

(** ** lodash.debounce and the timer queue *)

(** Run a callback that was handed to [debounce]. *)
Definition invoke (cb : Callback) (arg : obj) : M unit :=
  match cb with
  | SaveStateTo id => LocalState.save (LocalState.create id) arg
  end.

(** The timer queue is kept in firing order: by deadline, and among equal
    deadlines in the order the timers were set. *)
Fixpoint enqueue (t : Timeout) (q : list Timeout) : list Timeout :=
  match q with
  | [] => [t]
  | u :: q' =>
      if Z.leb (deadline u) (deadline t) then u :: enqueue t q'
      else t :: u :: q'
  end.

(** A call of the debounced function number [fn]: its pending trailing
    call, if any, is dropped and a new one is set [wait] ms from now with
    the arguments of this call. *)
Definition schedule (fn : nat) (cb : Callback) (wait : Z) (arg : obj) : M unit :=
  λ w,
    let others := filter (λ u, owner u ≠ fn) (pending w) in
    let t := {| owner := fn; deadline := now w + wait;
                callback := cb; argument := arg |} in
    (Ok tt, set_pending w (enqueue t others)).

(** Modelled from the spec: lodash.debounce, the default of the [debounce]
    prop, is an external package.  Per the spec's glossary and design
    notes, a debounced function coalesces rapid repeated calls into one
    delayed call after a quiet period: every call of it cancels and
    reschedules its single pending invocation, which then runs with the
    arguments of the last call.  Every call of [debounce] itself makes a
    new debounced function with a timer of its own. *)
Definition defaultDebounce (cb : Callback) (wait : Z) : M (obj → M unit) :=
  λ w,
    let fn := nextDebounced w in
    (Ok (schedule fn cb wait), set_nextDebounced w (S fn)).

Fixpoint fire_all (ts : list Timeout) : M unit :=
  match ts with
  | [] => ret tt
  | t :: ts' => invoke (callback t) (argument t) ;;' fire_all ts'
  end.

(** The clock reaches [t]: every timer due by then fires, in queue
    order. *)
Definition advance (t : Z) : M unit :=
  λ w,
    let due := filter (λ u, deadline u ≤ t) (pending w) in
    let rest := filter (λ u, ¬ (deadline u ≤ t)) (pending w) in
    fire_all due (set_now (set_pending w rest) (Z.max (now w) t)).

(** ** React elements *)

Inductive ElemType : Type :=
  | Host (tag : string)
  | Comp (name : string).

(** The methods of a component that are passed down as props. *)
Inductive Handler : Type :=
  | HOnSubmit
  | HOnBodyInput
  | HOnSelectRating
  | HOnEscapeOverlay
  | HTextareaRef.

Inductive Attr : Type :=
  | AFlag
  | AStr (s : string)
  | AVal (v : jsval)
  | AObj (o : obj)
  | AHtml (html : string) (allowedTags : list string)
  | AHandler (h : Handler).

#[warnings="-register-all"]
Inductive ReactNode : Type :=
  | Elem (type : ElemType) (attrs : list (string * Attr))
         (children : list ReactNode)
  | Text (s : string)
  | Null.

(** Whether [target] occurs in the tree [n]. *)
Fixpoint occurs (target : ReactNode) (n : ReactNode) : Prop :=
  target = n ∨
  match n with
  | Elem _ _ children =>
      (fix any (l : list ReactNode) : Prop :=
         match l with
         | [] => False
         | c :: l' => occurs target c ∨ any l'
         end) children
  | _ => False
  end.

Definition ElemType_eqb (a b : ElemType) : bool :=
  match a, b with
  | Host x, Host y => String.eqb x y
  | Comp x, Comp y => String.eqb x y
  | _, _ => false
  end.

(** The first element of type [ty] in the tree [n], in document order. *)
Fixpoint find_elem (ty : ElemType) (n : ReactNode) : option ReactNode :=
  match n with
  | Elem ty' _ children =>
      if ElemType_eqb ty ty' then Some n
      else
        (fix first (l : list ReactNode) : option ReactNode :=
           match l with
           | [] => None
           | c :: l' =>
               match find_elem ty c with
               | Some e => Some e
               | None => first l'
               end
           end) children
  | _ => None
  end.

(** The attribute [name] of an element. *)
Definition attr (n : ReactNode) (name : string) : option Attr :=
  match n with
  | Elem _ attrs _ =>
      (fix find (l : list (string * Attr)) : option Attr :=
         match l with
         | [] => None
         | (k, a) :: l' => if String.eqb k name then Some a else find l'
         end) attrs
  | _ => None
  end.

(** ** core/errorHandler and the review API *)

(** Modelled from the spec: core/errorHandler is not among the sources.
    Per the spec it is the error-display mechanism through which an
    operational error of a remote call is surfaced to the user: the handler
    keeps the error it was given, and [renderErrorIfPresent] displays it
    (and renders nothing while there is none). *)
Module ErrorHandler.

Record t : Type := create { id : positive }.

Definition handle (eh : positive) (error : jsval) : M unit :=
  λ w, (Ok tt, set_handled w (<[eh := error]> (handled w))).

Definition errorList (error : jsval) : ReactNode :=
  Elem (Comp "ErrorList") [("error", AVal error)] [].

Definition renderErrorIfPresent (eh : t) : M ReactNode :=
  λ w, match handled w !! id eh with
       | Some error => (Ok (errorList error), w)
       | None => (Ok Null, w)
       end.

End ErrorHandler.

(** How a promise of a remote call settles. *)
Inductive Outcome : Type :=
  | Fulfilled
  | Rejected (error : jsval).

(** Modelled from the spec: the remote update call behind the
    [updateReviewText] prop (amo/api/reviews [submitReview], then the
    dispatch of [setReview]) is not among the sources.  Per the spec it is
    an opaque asynchronous call; when it fails, the error is caught and
    surfaced through the error handler that came with the parameters, and
    the promise is rejected. *)
Definition settle_updateReviewText (params : obj) (o : Outcome) : M unit :=
  match o with
  | Fulfilled => ret tt
  | Rejected error =>
      match get params "errorHandler" with
      | JRef eh => ErrorHandler.handle eh error
      | _ => ret tt
      end ;;'
      throw (Rejection error)
  end.

(** ** amo/components/AddonReview *)

Module AddonReview.

(** A function prop whose body lives outside the component (the functions
    made by [mapDispatchToProps], their overrides and [onEscapeOverlay]); a
    call of it is recorded in the trace and returns. *)
Inductive ExternalFn : Type := external.

(** The completion callback that the caller of the form supplies
    ([onReviewSubmitted]): a call of it is recorded in the trace, and it
    either returns (a value or a promise) or throws. *)
Inductive CallerCallback : Type :=
  | returns
  | throws (error : jsval).

Record I18n : Type := {
  gettext : string → string;
  sprintf : string → list (string * string) → string;
}.

Record Props : Type := {
  createLocalState : option (string → LocalState.t);
  debounce : option (Callback → Z → M (obj → M unit));
  onEscapeOverlay : option ExternalFn;
  onReviewSubmitted : CallerCallback;
  review : option obj;
  refreshAddon : option ExternalFn;
  setDenormalizedReview : option ExternalFn;
  updateReviewText : option ExternalFn;
  apiState : positive;
  errorHandler : ErrorHandler.t;
  i18n : I18n;
}.

Definition defaultLocalStateCreator : string → LocalState.t :=
  LocalState.create.

(** The instance: [this.props], [this.state], [this.localState] and the
    textarea ref. *)
Record Component : Type := {
  props : Props;
  state : obj;
  localState : LocalState.t;
  reviewTextarea : bool;
}.

(** [this.setState(partial)]: the partial state is merged into the
    state. *)
Definition setState (c : Component) (partial : obj) : Component :=
  {| props := props c; state := spread (state c) partial;
     localState := localState c; reviewTextarea := reviewTextarea c |}.

(** The callback of [this.localState.load().then(...)]. *)
Definition checkForStoredState_then (c : Component)
    (storedState : option obj) : M Component :=
  match storedState with
  | Some stored =>
      emit (EvLogDebug
              ("Initializing AddonReview state from LocalState "
               +:+ LocalState.id (localState c)) stored) ;;'
      ret (setState c stored)
  | None => ret c
  end.

(** [checkForStoredState] starts the load and returns; what the load
    yields is handed to [checkForStoredState_then] when the promise
    resolves, which is after the current call stack has unwound. *)
Definition checkForStoredState (c : Component) : M (option obj) :=
  LocalState.load (localState c).

(** The constructor up to the call of [checkForStoredState]. *)
Definition construct (p : Props) : M Component :=
  match review p with
  | None => throw (TypeError "Cannot read property 'body' of undefined")
  | Some r =>
      let st : obj := {[ "reviewBody" := get r "body" ]} in
      create ←' invariant (createLocalState p)
                          "createLocalState() is undefined";
      ret {| props := p; state := st;
             localState := create ("AddonReview:" +:+ to_string (get r "id"));
             reviewTextarea := false |}
  end.

(** The constructor: the new instance, and the load it has started. *)
Definition constructor (p : Props) : M (Component * option obj) :=
  c ←' construct p;
  loading ←' checkForStoredState c;
  ret (c, loading).

Definition componentWillReceiveProps (c : Component) (nextProps : Props)
    : M Component :=
  match review nextProps with
  | Some r => ret (setState c {[ "reviewBody" := get r "body" ]})
  | None => ret c
  end.

Definition componentDidMount (c : Component) : M Component :=
  (if reviewTextarea c then emit EvFocusTextarea else ret tt) ;;'
  ret c.

(** What the [.then] callback of [onSubmit] has captured. *)
Record Submission : Type := {
  sub_params : obj;
  sub_onReviewSubmitted : CallerCallback;
  sub_localState : LocalState.t;
  sub_refreshAddon : ExternalFn;
  sub_review : obj;
  sub_apiState : positive;
}.

(** [{ body: reviewBody || undefined }] *)
Definition newReviewParams (reviewBody : jsval) : obj :=
  {[ "body" := js_or reviewBody JUndefined ]}.

(** [{ ...review, ...newReviewParams }] *)
Definition updatedReview (r : obj) (reviewBody : jsval) : obj :=
  spread r (newReviewParams reviewBody).

(** The [params] object literal of [onSubmit]. *)
Definition submitParams (p : Props) (r : obj) (reviewBody : jsval) : obj :=
  spread
    (<["addonId" := get r "addonId"]>
     (<["apiState" := JRef (apiState p)]>
      (<["errorHandler" := JRef (ErrorHandler.id (errorHandler p))]>
       (<["rating" := get r "rating"]>
        {[ "reviewId" := get r "id" ]}))))
    (newReviewParams reviewBody).

(** The synchronous part of [onSubmit], up to the call of
    [updateReviewText(params)]. *)
Definition onSubmit (c : Component) : M (Component * Submission) :=
  let p := props c in
  refresh ←' invariant (refreshAddon p) "refreshAddon() is undefined";
  _ ←' invariant (updateReviewText p) "updateReviewText() is undefined";
  _ ←' invariant (setDenormalizedReview p)
                 "setDenormalizedReview() is undefined";
  let reviewBody := get (state c) "reviewBody" in
  emit EvPreventDefault ;;'
  emit EvStopPropagation ;;'
  match review p with
  | None => throw (TypeError "Cannot read property 'addonId' of undefined")
  | Some r =>
      let params := submitParams p r reviewBody in
      emit (EvSetDenormalizedReview (updatedReview r reviewBody)) ;;'
      emit (EvUpdateReviewText params) ;;'
      ret (c, {| sub_params := params;
                 sub_onReviewSubmitted := onReviewSubmitted p;
                 sub_localState := localState c;
                 sub_refreshAddon := refresh;
                 sub_review := r;
                 sub_apiState := apiState p |})
  end.

(** The call [onReviewSubmitted()]. *)
Definition call_onReviewSubmitted (f : CallerCallback) : M unit :=
  emit EvReviewSubmitted ;;'
  match f with
  | returns => ret tt
  | throws error => throw (Rejection error)
  end.

(** The [.then] callback of [onSubmit]: the three calls inside the array
    handed to [Promise.all], evaluated in order; when one of them throws,
    the ones after it are not made and the promise is rejected. *)
Definition onSubmit_then (s : Submission) : M unit :=
  call_onReviewSubmitted (sub_onReviewSubmitted s) ;;'
  LocalState.clear (sub_localState s) ;;'
  emit (EvRefreshAddon
          (<["addonSlug" := get (sub_review s) "addonSlug"]>
           {[ "apiState" := JRef (sub_apiState s) ]})).

(** A whole submit: the handler, the remote call settling with [o], and
    the callback when it was fulfilled. *)
Definition submit (c : Component) (o : Outcome) : M Component :=
  cs ←' onSubmit c;
  settle_updateReviewText (sub_params (snd cs)) o ;;'
  onSubmit_then (snd cs) ;;'
  ret (fst cs).

Definition onBodyInput (c : Component) (value : string) : M Component :=
  debounce ←' invariant (debounce (props c)) "debounce() is undefined";
  saveState ←' debounce (SaveStateTo (LocalState.id (localState c))) 800;
  let newState : obj := {[ "reviewBody" := JStr value ]} in
  saveState newState ;;'
  ret (setState c newState).

Definition onSelectRating (c : Component) (rating : Z) : M Component :=
  _ ←' invariant (setDenormalizedReview (props c))
                 "setDenormalizedReview() is undefined";
  let r := default ∅ (review (props c)) in
  emit (EvSetDenormalizedReview
          (<["rating" := JNum rating]>
           (<["body" := js_or (get (state c) "reviewBody") JUndefined]> r))) ;;'
  ret c.

(** [!review || !review.id || !review.addonSlug] *)
Definition review_unusable (r : option obj) : bool :=
  match r with
  | None => true
  | Some r => negb (truthy (get r "id")) || negb (truthy (get r "addonSlug"))
  end.

(** The double quote character. *)
Definition dquote : string := String (Ascii.ascii_of_nat 34) EmptyString.

Definition prompt_fantastic : string :=
  "Tell the world why you think this extension is fantastic!
        Please follow our %(linkStart)sreview guidelines%(linkEnd)s.".

Definition prompt_plain : string :=
  "Tell the world about this extension.
        Please follow our %(linkStart)sreview guidelines%(linkEnd)s.".

Definition placeholder_love : string :=
  "Tell us what you love about this extension. Be specific and concise.".

Definition placeholder_experience : string :=
  "Tell us about your experience with this extension. "
  +:+ "Be specific and concise.".

(** The form of the component: the [form] element of [render]. *)
Definition render_form (c : Component) (errorDisplay : ReactNode)
    (placeholder : string) : ReactNode :=
  let i18n := i18n (props c) in
  Elem (Host "form")
    [("className", AStr "AddonReview-form"); ("onSubmit", AHandler HOnSubmit)]
    [ Elem (Host "div") [("className", AStr "AddonReview-form-input")]
        [ errorDisplay;
          Elem (Host "label")
            [("htmlFor", AStr "AddonReview-textarea");
             ("className", AStr "visually-hidden")]
            [Text (gettext i18n "Review text")];
          Elem (Host "textarea")
            [("id", AStr "AddonReview-textarea");
             ("ref", AHandler HTextareaRef);
             ("className", AStr "AddonReview-textarea");
             ("onInput", AHandler HOnBodyInput);
             ("name", AStr "review");
             ("value", AVal (get (state c) "reviewBody"));
             ("placeholder", AStr placeholder)]
            [] ];
      Elem (Host "input")
        [("className", AStr "AddonReview-submit");
         ("type", AStr "submit");
         ("value", AStr (gettext i18n "Submit review"))]
        [] ].

Definition render (c : Component) : M ReactNode :=
  let p := props c in
  let i18n := i18n p in
  if review_unusable (review p)
  then throw (UnexpectedReviewProperty (review p))
  else
    let r := default ∅ (review p) in
    let fantastic :=
      truthy (js_and (get r "rating") (js_gt (get r "rating") 3)) in
    let promptText :=
      gettext i18n (if fantastic then prompt_fantastic else prompt_plain) in
    let placeholder :=
      gettext i18n
        (if fantastic then placeholder_love else placeholder_experience) in
    let prompt :=
      sprintf i18n promptText
        [("linkStart", "<a href=" +:+ dquote +:+ "/review_guide" +:+ dquote +:+ ">");
         ("linkEnd", "</a>")] in
    errorDisplay ←' ErrorHandler.renderErrorIfPresent (errorHandler p);
    ret (Elem (Comp "OverlayCard")
           [("visibleOnLoad", AFlag);
            ("onEscapeOverlay",
             match onEscapeOverlay p with
             | Some _ => AHandler HOnEscapeOverlay
             | None => AVal JUndefined
             end);
            ("className", AStr "AddonReview")]
           [ Elem (Host "h2") [("className", AStr "AddonReview-header")]
               [Text (gettext i18n "Write a review")];
             Elem (Host "p")
               [("className", AStr "AddonReview-prompt");
                ("dangerouslySetInnerHTML", AHtml prompt ["a"])]
               [];
             Elem (Comp "UserRating")
               [("styleSize", AStr "large");
                ("review", AObj r);
                ("onSelectRating", AHandler HOnSelectRating)]
               [];
             render_form c errorDisplay placeholder ]).

(** The redux state, as far as the form reads it. *)
Record ReduxState : Type := { api : positive }.

(** [mapStateToProps]: the API state of the store becomes [apiState]. *)
Definition mapStateToProps (s : ReduxState) : positive := api s.

(** Where a function made by [mapDispatchToProps] comes from: the own
    prop of the same name, or the default that goes through [dispatch]. *)
Inductive MappedFn : Type :=
  | OwnProp (f : ExternalFn)
  | ThroughDispatch.

Record DispatchMappedProps : Type := {
  mapped_refreshAddon : MappedFn;
  mapped_setDenormalizedReview : MappedFn;
  mapped_updateReviewText : MappedFn;
}.

(** [ownProps.f || default] *)
Definition own_or_default (f : option ExternalFn) : MappedFn :=
  match f with
  | Some f => OwnProp f
  | None => ThroughDispatch
  end.

Definition mapDispatchToProps (ownProps : Props) : DispatchMappedProps :=
  {| mapped_refreshAddon := own_or_default (refreshAddon ownProps);
     mapped_setDenormalizedReview := ThroughDispatch;
     mapped_updateReviewText := own_or_default (updateReviewText ownProps) |}.

(** A mapped function as the prop the component receives; calling it is
    recorded in the trace like any other collaborator call. *)
Definition as_prop (f : MappedFn) : option ExternalFn :=
  match f with
  | OwnProp f => Some f
  | ThroughDispatch => Some external
  end.

(** The props that [connect(mapStateToProps, mapDispatchToProps)] hands to
    the component: the own props, overlaid with the state props and then
    with the dispatch props. *)
Definition connected (s : ReduxState) (ownProps : Props) : Props :=
  let mapped := mapDispatchToProps ownProps in
  {| createLocalState := createLocalState ownProps;
     debounce := debounce ownProps;
     onEscapeOverlay := onEscapeOverlay ownProps;
     onReviewSubmitted := onReviewSubmitted ownProps;
     review := review ownProps;
     refreshAddon := as_prop (mapped_refreshAddon mapped);
     setDenormalizedReview := as_prop (mapped_setDenormalizedReview mapped);
     updateReviewText := as_prop (mapped_updateReviewText mapped);
     apiState := mapStateToProps s;
     errorHandler := errorHandler ownProps;
     i18n := i18n ownProps |}.

End AddonReview.

(** ** The error boundary *)

Module ErrorPage.

Record Props : Type := {
  children : ReactNode;
  getErrorComponent : jsval → ElemType;
  errorPage : obj;
}.

Definition componentDidCatch (p : Props) (error : jsval) : M unit :=
  emit (EvLoadErrorPage error) ;;'
  emit (EvLogError "Caught application error:" error).

Definition render (p : Props) : ReactNode :=
  let errorPage := errorPage p in
  if truthy (get errorPage "hasError")
  then
    Elem (getErrorComponent p (get errorPage "statusCode"))
      [("error", AVal (get errorPage "error"));
       ("status", AVal (get errorPage "statusCode"))]
      []
  else children p.

End ErrorPage.

(** ** What a rendered form shows *)

(** The [value] of the textarea. *)
Definition rendered_body (n : ReactNode) : option Attr :=
  e ← find_elem (Host "textarea") n; attr e "value".

(** The rating of the review handed to the rating widget. *)
Definition rendered_rating (n : ReactNode) : option jsval :=
  e ← find_elem (Comp "UserRating") n;
  match attr e "review" with
  | Some (AObj r) => Some (get r "rating")
  | _ => None
  end.

(** The [placeholder] of the textarea. *)
Definition rendered_placeholder (n : ReactNode) : option Attr :=
  e ← find_elem (Host "textarea") n; attr e "placeholder".

(** The prompt paragraph: the HTML handed to [sanitizeHTML]. *)
Definition rendered_prompt (n : ReactNode) : option Attr :=
  e ← find_elem (Host "p") n; attr e "dangerouslySetInnerHTML".

(** The save events of a trace, in order. *)
Definition saves (t : list Event) : list (string * obj) :=
  omap (λ e, match e with
             | EvLocalSave id data => Some (id, data)
             | _ => None
             end) t.

(** The ids whose store entry a trace clears, in order. *)
Definition clears (t : list Event) : list string :=
  omap (λ e, match e with
             | EvLocalClear id => Some id
             | _ => None
             end) t.

(** How many times a trace calls the completion callback. *)
Definition completions (t : list Event) : nat :=
  length (filter (λ e, e = EvReviewSubmitted) t).

(** The reviews a trace dispatches to the shared state, in order. *)
Definition dispatched (t : list Event) : list obj :=
  omap (λ e, match e with
             | EvSetDenormalizedReview r => Some r
             | _ => None
             end) t.

(** The parameters of the remote update calls of a trace, in order. *)
Definition remote_calls (t : list Event) : list obj :=
  omap (λ e, match e with
             | EvUpdateReviewText params => Some params
             | _ => None
             end) t.

(** The event a timer produces when it fires. *)
Definition fired (t : Timeout) : Event :=
  match callback t with
  | SaveStateTo id => EvLocalSave id (argument t)
  end.

(** The timers of a world all belong to debounced functions made so far
    and are due within one debounce period. *)
Definition timers_ok (w : World) : Prop :=
  Forall (λ u, (owner u < nextDebounced w)%nat) (pending w)
  ∧ Forall (λ u, deadline u ≤ now w + 800) (pending w).

(** The timer queue of a world is in deadline order. *)
Definition queue_sorted (w : World) : Prop :=
  StronglySorted (λ a b, deadline a ≤ deadline b) (pending w).

(** The save events that a typing session on the form with local-state id
    [id] is due: one per edit, in the order of the edits, each with the
    text of its edit. *)
Definition due_saves (id : string) (edits : list (Z * string)) : list Event :=
  map (λ e, EvLocalSave id {[ "reviewBody" := JStr (snd e) ]}) edits.

(** The store after the saves and clears of a trace have been applied to
    it, in order. *)
Definition replay (t : list Event) (store : gmap string obj) : gmap string obj :=
  foldl (λ st e, match e with
                 | EvLocalSave id data => <[id := data]> st
                 | EvLocalClear id => delete id st
                 | _ => st
                 end) store t.

(** ** Driving the form *)

(** A computation whose failure is observed instead of thrown: a promise
    that has settled. *)
Definition settled {A} (m : M A) : M (Result A) :=
  λ w, (Ok (fst (m w)), snd (m w)).

(** [ms] milliseconds pass. *)
Definition wait (ms : Z) : M unit := λ w, advance (now w + ms) w.

(** The user types: each edit comes some milliseconds after the one
    before it. *)
Fixpoint type_all (c : AddonReview.Component) (edits : list (Z * string))
    : M AddonReview.Component :=
  match edits with
  | [] => ret c
  | (delay, value) :: edits' =>
      wait delay ;;'
      c' ←' AddonReview.onBodyInput c value;
      type_all c' edits'
  end.

(** The user types and then stays idle for a whole debounce period. *)
Definition type_then_idle (c : AddonReview.Component)
    (edits : list (Z * string)) : M AddonReview.Component :=
  c' ←' type_all c edits;
  wait 800 ;;'
  ret c'.

(** One edit, after which the clock reaches [t]. *)
Definition edit_then_advance (c : AddonReview.Component) (value : string)
    (t : Z) : M AddonReview.Component :=
  c' ←' AddonReview.onBodyInput c value;
  advance t ;;'
  ret c'.

(** What a mount produces: the instance, what the first render showed, and
    what is on display once the pending load has resolved. *)
Record Mounted : Type := {
  instance : AddonReview.Component;
  first_render : ReactNode;
  settled_render : ReactNode;
}.

(** Mounting a form, as React drives it: the constructor, the first
    render, the textarea ref and [componentDidMount]; then the load started
    by the constructor resolves, and the state it sets is rendered. *)
Definition mount (p : AddonReview.Props) : M Mounted :=
  started ←' AddonReview.constructor p;
  first ←' AddonReview.render (fst started);
  c ←' AddonReview.componentDidMount
         {| AddonReview.props := AddonReview.props (fst started);
            AddonReview.state := AddonReview.state (fst started);
            AddonReview.localState := AddonReview.localState (fst started);
            AddonReview.reviewTextarea := true |};
  c ←' AddonReview.checkForStoredState_then c (snd started);
  settled ←' AddonReview.render c;
  ret {| instance := c; first_render := first; settled_render := settled |}.

(** An edit is left to be saved, and the form is mounted anew. *)
Definition edit_then_remount (c : AddonReview.Component) (value : string)
    (t : Z) : M Mounted :=
  edit_then_advance c value t ;;'
  mount (AddonReview.props c).


(** A successful submit; then the clock reaches [t], and the form is
    mounted anew. *)
Definition submit_then_remount (c : AddonReview.Component) (t : Z)
    : M Mounted :=
  AddonReview.submit c Fulfilled ;;'
  advance t ;;'
  mount (AddonReview.props c).


(** A submit that fails, followed by a second one that succeeds. *)
Definition submit_retry (c : AddonReview.Component) (error : jsval)
    : M AddonReview.Component :=
  settled (AddonReview.submit c (Rejected error)) ;;'
  AddonReview.submit c Fulfilled.

(** ** Sample inputs *)

Module Samples.

Import AddonReview.

Definition plain_i18n : I18n :=
  {| gettext := λ s, s; sprintf := λ s _, s |}.

(** The review of the spec's scenario: id r1, body old, rating 5. *)
Definition review_r1 : obj :=
  <["id" := JStr "r1"]>
  (<["addonId" := JNum 7]>
   (<["addonSlug" := JStr "some-addon"]>
    (<["body" := JStr "old"]> {[ "rating" := JNum 5 ]}))).

Definition props_of (r : option obj) : Props :=
  {| createLocalState := Some defaultLocalStateCreator;
     debounce := Some defaultDebounce;
     onEscapeOverlay := None;
     onReviewSubmitted := returns;
     review := r;
     refreshAddon := Some external;
     setDenormalizedReview := Some external;
     updateReviewText := Some external;
     apiState := 1%positive;
     errorHandler := ErrorHandler.create 2;
     i18n := plain_i18n |}.

Definition props_r1 : Props := props_of (Some review_r1).

(** The form for r1 once mounted over an empty store. *)
Definition form_r1 : Component :=
  {| props := props_r1;
     state := {[ "reviewBody" := JStr "old" ]};
     localState := LocalState.create "AddonReview:r1";
     reviewTextarea := true |}.

(** A review without an id. *)
Definition review_no_id : obj :=
  <["addonSlug" := JStr "some-addon"]>
  (<["body" := JStr "old"]> {[ "rating" := JNum 5 ]}).

(** The instance the constructor makes for it; its render throws, so it
    is never mounted. *)
Definition form_no_id : Component :=
  {| props := props_of (Some review_no_id);
     state := {[ "reviewBody" := JStr "old" ]};
     localState := LocalState.create "AddonReview:undefined";
     reviewTextarea := false |}.

(** The same form with an emptied body. *)
Definition form_r1_empty : Component :=
  setState form_r1 {[ "reviewBody" := JStr EmptyString ]}.

(** A store holding a snapshot with a body and a rating for r1. *)
Definition stored_r1 : obj :=
  <["reviewBody" := JStr "draft"]> {[ "rating" := JNum 2 ]}.

Definition world_with_draft : World :=
  set_storage initial_world {[ "AddonReview:r1" := stored_r1 ]}.

(** The form for r1 when the caller's completion callback throws. *)
Definition form_r1_throwing : Component :=
  {| props :=
       {| createLocalState := Some defaultLocalStateCreator;
          debounce := Some defaultDebounce;
          onEscapeOverlay := None;
          onReviewSubmitted := throws (JStr "overlay is gone");
          review := Some review_r1;
          refreshAddon := Some external;
          setDenormalizedReview := Some external;
          updateReviewText := Some external;
          apiState := 1%positive;
          errorHandler := ErrorHandler.create 2;
          i18n := plain_i18n |};
     state := {[ "reviewBody" := JStr "old" ]};
     localState := LocalState.create "AddonReview:r1";
     reviewTextarea := true |}.

(** A review with an id and an addon slug, but no addon id, and the props
    of a form for it. *)
Definition review_no_addonId : obj :=
  <["id" := JStr "r1"]>
  (<["addonSlug" := JStr "some-addon"]>
   (<["body" := JStr "old"]> {[ "rating" := JNum 5 ]})).

Definition props_no_addonId : Props := props_of (Some review_no_addonId).

(** A form whose props have lost their review. *)
Definition form_no_review : Component :=
  {| props := props_of None;
     state := {[ "reviewBody" := JStr "old" ]};
     localState := LocalState.create "AddonReview:r1";
     reviewTextarea := true |}.

(** The form for r1 with a new body typed in. *)
Definition form_r1_typed : Component :=
  setState form_r1 {[ "reviewBody" := JStr "great addon" ]}.

(** The props for r1 after the rating 4 was picked while typing. *)
Definition props_r1_rated : Props :=
  props_of (Some (<["rating" := JNum 4]>
                  (<["body" := JStr "great addon"]> review_r1))).

(** Own props that bring none of the functions [mapDispatchToProps]
    makes, and the connected form over them. *)
Definition bare_props : Props :=
  {| createLocalState := Some defaultLocalStateCreator;
     debounce := Some defaultDebounce;
     onEscapeOverlay := None;
     onReviewSubmitted := returns;
     review := Some review_r1;
     refreshAddon := None;
     setDenormalizedReview := None;
     updateReviewText := None;
     apiState := 1%positive;
     errorHandler := ErrorHandler.create 2;
     i18n := plain_i18n |}.

Definition connected_form : Component :=
  {| props := connected {| api := 5 |} bare_props;
     state := {[ "reviewBody" := JStr "old" ]};
     localState := LocalState.create "AddonReview:r1";
     reviewTextarea := true |}.

(** A store whose entry for r1 has no body in it. *)
Definition world_with_foreign_snapshot : World :=
  set_storage initial_world {[ "AddonReview:r1" := {[ "rating" := JNum 2 ]} ]}.

(** Two edits 100 ms apart, inside one debounce period. *)
Definition two_edits : list (Z * string) := [(0, "a"); (100, "ab")].

(** The scenario of the spec: the form for r1 is mounted over an empty
    store, the user types, waits for more than 800 ms and submits, and the
    remote call succeeds. *)
Definition scenario_r1 : M (Mounted * World) :=
  m ←' mount props_r1;
  c ←' onBodyInput (instance m) "great addon";
  wait 801 ;;'
  saved ←' (λ w, (Ok w, w));
  submit c Fulfilled ;;'
  ret (m, saved).

End Samples.

Module ErrorPageSamples.

Import ErrorPage.

(** The fallback element: the component chosen for the status code, with
    the recorded error and status. *)
Definition fallback (p : Props) : ReactNode :=
  Elem (getErrorComponent p (get (errorPage p) "statusCode"))
    [("error", AVal (get (errorPage p) "error"));
     ("status", AVal (get (errorPage p) "statusCode"))]
    [].

Definition not_found_page : Props :=
  {| children := Text "content";
     getErrorComponent :=
       λ status, if decide (status = JNum 404) then Comp "NotFound"
                 else Comp "ServerError";
     errorPage :=
       <["hasError" := JBool true]>
       (<["statusCode" := JNum 404]> {[ "error" := JRef 9 ]}) |}.

Definition healthy_page : Props :=
  {| children := Text "content";
     getErrorComponent := λ _, Comp "ServerError";
     errorPage := ∅ |}.

End ErrorPageSamples.

(** * Properties *)

(** ** Objects *)

Lemma get_insert_eq (o : obj) k v : get (<[k := v]> o) k = v.
Proof. unfold get. by rewrite lookup_insert_eq. Qed.

Lemma get_insert_ne (o : obj) k k' v :
  k ≠ k' → get (<[k := v]> o) k' = get o k'.
Proof. intros Hne. unfold get. by rewrite lookup_insert_ne. Qed.

Lemma get_singleton_eq k v : get ({[ k := v ]} : obj) k = v.
Proof. unfold get. by rewrite lookup_singleton_eq. Qed.

(** A spread reads the overriding object first. *)
Lemma get_spread_override (a b : obj) k v :
  b !! k = Some v → get (spread a b) k = v.
Proof.
  intros Hb. unfold get, spread.
  by rewrite (lookup_union_Some_l b a k v Hb).
Qed.

Lemma get_spread_base (a b : obj) k :
  b !! k = None → get (spread a b) k = get a k.
Proof.
  intros Hb. unfold get, spread. by rewrite lookup_union_r.
Qed.


(** ** The error boundary *)

Module ErrorPageFacts.

Import ErrorPage ErrorPageSamples.

(** C8: the boundary renders the fallback component chosen by
    [getErrorComponent] for the status code, given the recorded error and
    status, when the error-page state has [hasError] set; otherwise it
    renders its children as they are.  When the children are not that
    very fallback element, it renders the fallback exactly when
    [hasError] is set. *)
Theorem render_fallback_exactly_on_error (p : Props) :
  (truthy (get (errorPage p) "hasError") = true → render p = fallback p)
  ∧ (truthy (get (errorPage p) "hasError") = false → render p = children p)
  ∧ (children p ≠ fallback p →
     (render p = fallback p ↔ truthy (get (errorPage p) "hasError") = true)).
Proof.
  unfold render, fallback.
  destruct (truthy (get (errorPage p) "hasError")) eqn:Herr.
  - split; [done | split; [done |]]. intros _. by split.
  - split; [done | split; [done |]]. intros Hne. split; [| done].
    intros Heq. by destruct Hne.
Qed.

Lemma render_fallback_exactly_on_error_witness :
  render not_found_page
    = Elem (Comp "NotFound")
        [("error", AVal (JRef 9)); ("status", AVal (JNum 404))] []
  ∧ render healthy_page = Text "content".
Proof.
  split.
  - apply (proj1 (render_fallback_exactly_on_error not_found_page)).
    reflexivity.
  - apply (proj1 (proj2 (render_fallback_exactly_on_error healthy_page))).
    reflexivity.
Defined.

End ErrorPageFacts.

(** ** The review form *)

Module AddonReviewFacts.

Import AddonReview Samples.

Lemma bind_ok {A B} (m : M A) (k : A → M B) w a w' :
  m w = (Ok a, w') → bind m k w = k a w'.
Proof. unfold bind. by intros ->. Qed.

(** The sample form is the one a mount produces, and its first render
    shows the supplied body. *)
Example mount_r1 :
  ∃ m w',
    mount props_r1 initial_world = (Ok m, w')
    ∧ instance m = form_r1
    ∧ rendered_body (first_render m) = Some (AVal (JStr "old"))
    ∧ trace w' = [EvLocalLoad "AddonReview:r1"; EvFocusTextarea].
Proof.
  eexists _, _. split; [vm_compute; reflexivity |].
  repeat split; vm_compute; reflexivity.
Qed.

(** The constructor accepts a review without an id; the render that
    follows does not. *)
Example construct_no_id :
  ∃ w',
    constructor (props_of (Some review_no_id)) initial_world
      = (Ok (form_no_id, None), w')
    ∧ render form_no_id w'
        = (Throw (UnexpectedReviewProperty (Some review_no_id)), w').
Proof. eexists. split; vm_compute; reflexivity. Qed.

(** The scenario of the spec, run on the code: the first render shows the
    supplied body; after the edit and the wait the store holds the edited
    body, and only that; the submit sends it to the remote call, and on
    success the entry is removed and the completion callback is called. *)
Example scenario_r1_run :
  ∃ m saved w',
    scenario_r1 initial_world = (Ok (m, saved), w')
    ∧ rendered_body (first_render m) = Some (AVal (JStr "old"))
    ∧ storage saved !! "AddonReview:r1"
        = Some {[ "reviewBody" := JStr "great addon" ]}
    ∧ (λ params, get params "body") <$> remote_calls (trace w')
        = [JStr "great addon"]
    ∧ storage w' !! "AddonReview:r1" = None
    ∧ completions (trace w') = 1%nat.
Proof.
  eexists _, _, _. split; [vm_compute; reflexivity |].
  repeat split; vm_compute; reflexivity.
Qed.

(** The handler gets as far as the remote call whenever the three
    injected functions and the review are there. *)
Lemma onSubmit_ok c r w :
  refreshAddon (props c) = Some external →
  updateReviewText (props c) = Some external →
  setDenormalizedReview (props c) = Some external →
  review (props c) = Some r →
  let body := get (state c) "reviewBody" in
  onSubmit c w =
    (Ok (c, {| sub_params := submitParams (props c) r body;
               sub_onReviewSubmitted := onReviewSubmitted (props c);
               sub_localState := localState c;
               sub_refreshAddon := external;
               sub_review := r;
               sub_apiState := apiState (props c) |}),
     set_trace w
       (trace w ++ [EvPreventDefault; EvStopPropagation;
                    EvSetDenormalizedReview (updatedReview r body);
                    EvUpdateReviewText (submitParams (props c) r body)])).
Proof.
  intros Hrefresh Hupdate Hset Hreview body.
  unfold onSubmit. rewrite Hrefresh, Hupdate, Hset, Hreview.
  unfold bind, invariant, ret, emit, set_trace; simpl.
  by rewrite <- !app_assoc.
Qed.

Lemma onSubmit_then_run s w :
  sub_onReviewSubmitted s = returns →
  onSubmit_then s w =
    (Ok tt,
     set_storage
       (set_trace w
          (trace w ++ [EvReviewSubmitted;
                       EvLocalClear (LocalState.id (sub_localState s));
                       EvRefreshAddon
                         (<["addonSlug" := get (sub_review s) "addonSlug"]>
                          {[ "apiState" := JRef (sub_apiState s) ]})]))
       (delete (LocalState.id (sub_localState s)) (storage w))).
Proof.
  intros Hreturns.
  unfold onSubmit_then, call_onReviewSubmitted. rewrite Hreturns.
  unfold LocalState.clear, bind, emit, ret, set_storage, set_trace.
  simpl. by rewrite <- !app_assoc.
Qed.

(** When the completion callback throws, the callback of the submit ends
    there: the call is the only thing that happened. *)
Lemma onSubmit_then_throws s error w :
  sub_onReviewSubmitted s = throws error →
  onSubmit_then s w =
    (Throw (Rejection error), set_trace w (trace w ++ [EvReviewSubmitted])).
Proof.
  intros Hthrows.
  unfold onSubmit_then, call_onReviewSubmitted. by rewrite Hthrows.
Qed.

Lemma submitParams_errorHandler p r body :
  get (submitParams p r body) "errorHandler"
    = JRef (ErrorHandler.id (errorHandler p)).
Proof.
  unfold submitParams, newReviewParams.
  rewrite get_spread_base by done.
  rewrite !get_insert_ne by done. apply get_insert_eq.
Qed.

Lemma submitParams_body p r body :
  get (submitParams p r body) "body" = js_or body JUndefined.
Proof.
  unfold submitParams, newReviewParams.
  apply get_spread_override, lookup_singleton_eq.
Qed.

Lemma updatedReview_body r body :
  get (updatedReview r body) "body" = js_or body JUndefined.
Proof.
  unfold updatedReview, newReviewParams.
  apply get_spread_override, lookup_singleton_eq.
Qed.

(** C2, as the spec states it, fails: when the completion callback throws,
    a submit whose remote update call succeeded has called the callback
    but clears nothing, and the draft stays in the store. *)
Lemma submit_success_without_clear :
  ¬ (∀ c r w,
       refreshAddon (props c) = Some external →
       updateReviewText (props c) = Some external →
       setDenormalizedReview (props c) = Some external →
       review (props c) = Some r →
       ∃ res w' evs,
         submit c Fulfilled w = (res, w')
         ∧ trace w' = trace w ++ evs
         ∧ clears evs = [LocalState.id (localState c)]
         ∧ completions evs = 1%nat).
Proof.
  intros Hclaim.
  destruct (Hclaim form_r1_throwing review_r1 world_with_draft
              eq_refl eq_refl eq_refl eq_refl)
    as (res & w' & evs & Hrun & Htrace & Hclears & _).
  vm_compute in Hrun. inversion Hrun; subst res w'.
  simpl in Htrace. subst evs. vm_compute in Hclears. discriminate.
Qed.

(** C2, amended: a submit whose remote update call succeeds and whose
    completion callback returns clears the store entry of the form's local
    state exactly once (and no other entry), calls the completion callback
    exactly once, and leaves no entry behind. *)
Theorem submit_success_clears_and_completes_once c r w :
  refreshAddon (props c) = Some external →
  updateReviewText (props c) = Some external →
  setDenormalizedReview (props c) = Some external →
  onReviewSubmitted (props c) = returns →
  review (props c) = Some r →
  ∃ w' evs,
    submit c Fulfilled w = (Ok c, w')
    ∧ trace w' = trace w ++ evs
    ∧ clears evs = [LocalState.id (localState c)]
    ∧ completions evs = 1%nat
    ∧ storage w' !! LocalState.id (localState c) = None.
Proof.
  intros Hrefresh Hupdate Hset Hreturns Hreview.
  pose proof (onSubmit_ok c r w Hrefresh Hupdate Hset Hreview) as Hsync.
  simpl in Hsync.
  eexists _, _. unfold submit.
  rewrite (bind_ok _ _ _ _ _ Hsync). simpl.
  unfold bind at 1. unfold ret at 1.
  unfold bind at 1. rewrite onSubmit_then_run by exact Hreturns.
  unfold ret. simpl.
  split; [reflexivity |].
  split; [rewrite <- app_assoc; reflexivity |].
  split; [reflexivity |].
  split; [reflexivity |].
  apply lookup_delete_eq.
Qed.

Lemma submit_success_clears_and_completes_once_witness :
  ∃ w' evs,
    submit form_r1 Fulfilled initial_world = (Ok form_r1, w')
    ∧ trace w' = trace initial_world ++ evs
    ∧ clears evs = ["AddonReview:r1"]
    ∧ completions evs = 1%nat
    ∧ storage w' !! "AddonReview:r1" = None.
Proof.
  apply (submit_success_clears_and_completes_once form_r1 review_r1);
    reflexivity.
Defined.

Lemma render_ok c r w :
  review (props c) = Some r →
  review_unusable (Some r) = false →
  ∃ node,
    render c w = (Ok node, w)
    ∧ find_elem (Host "form") node
        = Some (render_form c
                  (match handled w !! ErrorHandler.id (errorHandler (props c)) with
                   | Some error => ErrorHandler.errorList error
                   | None => Null
                   end)
                  (gettext (i18n (props c))
                     (if truthy (js_and (get r "rating") (js_gt (get r "rating") 3))
                      then placeholder_love else placeholder_experience)))
    ∧ rendered_body node = Some (AVal (get (state c) "reviewBody"))
    ∧ rendered_rating node = Some (get r "rating").
Proof.
  intros Hreview Husable. unfold render. rewrite Hreview, Husable.
  unfold bind, ErrorHandler.renderErrorIfPresent. simpl.
  destruct (handled w !! ErrorHandler.id (errorHandler (props c)));
    unfold ret; eexists; (split; [reflexivity |]); by repeat split.
Qed.

Lemma occurs_refl n : occurs n n.
Proof. destruct n; simpl; by left. Qed.

(** The error display sits inside the form. *)
Lemma occurs_render_form c display placeholder :
  occurs display (render_form c display placeholder).
Proof.
  unfold render_form. cbn [occurs].
  right. left. right. left. apply occurs_refl.
Qed.

Lemma occurs_find_elem ty target :
  ∀ n e, find_elem ty n = Some e → occurs target e → occurs target n.
Proof.
  fix IH 1.
  intros [ty' attrs children | s |] e Hfind Hocc;
    simpl in Hfind; try discriminate.
  destruct (ElemType_eqb ty ty'); [by inversion Hfind; subst |].
  simpl. right. revert Hfind.
  induction children as [| c children IHchildren]; [discriminate |].
  destruct (find_elem ty c) as [e' |] eqn:Hc; intros Hfind.
  - left. inversion Hfind; subst. by apply (IH c e).
  - right. by apply IHchildren.
Qed.

(** C3: a submit whose remote update call fails clears nothing — the
    store is as it was before the submit — and the error is then
    displayed inside the form by the error handler, to which the remote
    call had reported it. *)
Theorem submit_failure_keeps_draft_and_shows_error c r w error :
  refreshAddon (props c) = Some external →
  updateReviewText (props c) = Some external →
  setDenormalizedReview (props c) = Some external →
  review (props c) = Some r →
  review_unusable (Some r) = false →
  ∃ w' evs node,
    submit c (Rejected error) w = (Throw (Rejection error), w')
    ∧ trace w' = trace w ++ evs
    ∧ clears evs = []
    ∧ storage w' = storage w
    ∧ render c w' = (Ok node, w')
    ∧ occurs (ErrorHandler.errorList error) node.
Proof.
  intros Hrefresh Hupdate Hset Hreview Husable.
  pose proof (onSubmit_ok c r w Hrefresh Hupdate Hset Hreview) as Hsync.
  simpl in Hsync.
  set (w1 := set_trace w _) in Hsync.
  set (w2 := set_handled w1
               (<[ErrorHandler.id (errorHandler (props c)) := error]>
                  (handled w1))).
  destruct (render_ok c r w2 Hreview Husable) as (node & Hrender & Hform & _).
  exists w2, [EvPreventDefault; EvStopPropagation;
              EvSetDenormalizedReview
                (updatedReview r (get (state c) "reviewBody"));
              EvUpdateReviewText
                (submitParams (props c) r (get (state c) "reviewBody"))],
         node.
  split.
  { unfold submit. rewrite (bind_ok _ _ _ _ _ Hsync). simpl.
    unfold settle_updateReviewText. rewrite submitParams_errorHandler.
    reflexivity. }
  repeat split; try done.
  eapply occurs_find_elem; [exact Hform |].
  replace (handled w2 !! ErrorHandler.id (errorHandler (props c)))
    with (Some error) by (symmetry; apply lookup_insert_eq).
  apply occurs_render_form.
Qed.

Lemma submit_failure_keeps_draft_and_shows_error_witness :
  ∃ w' evs node,
    submit form_r1 (Rejected (JStr "HTTP 500")) world_with_draft
      = (Throw (Rejection (JStr "HTTP 500")), w')
    ∧ trace w' = trace world_with_draft ++ evs
    ∧ clears evs = []
    ∧ storage w' = storage world_with_draft
    ∧ render form_r1 w' = (Ok node, w')
    ∧ occurs (ErrorHandler.errorList (JStr "HTTP 500")) node.
Proof.
  apply (submit_failure_keeps_draft_and_shows_error form_r1 review_r1);
    reflexivity.
Defined.

(** C9: when the form receives new props that carry a review, its body
    in the component state becomes the body of that review, whatever it
    was before (typed but unsaved, or recovered from the store); nothing
    else of the component changes and nothing is called. *)
Theorem componentWillReceiveProps_overwrites_body c nextProps r w :
  review nextProps = Some r →
  ∃ c',
    componentWillReceiveProps c nextProps w = (Ok c', w)
    ∧ get (state c') "reviewBody" = get r "body"
    ∧ (∀ k, k ≠ "reviewBody" → state c' !! k = state c !! k)
    ∧ props c' = props c
    ∧ localState c' = localState c.
Proof.
  intros Hreview. unfold componentWillReceiveProps. rewrite Hreview.
  eexists. split; [reflexivity |]. simpl.
  split; [apply get_spread_override, lookup_singleton_eq |].
  split; [| done].
  intros k Hk. unfold spread.
  rewrite lookup_union_r; [done |]. by apply lookup_singleton_ne.
Qed.

Lemma componentWillReceiveProps_overwrites_body_witness :
  ∃ c',
    componentWillReceiveProps
      (setState form_r1 {[ "reviewBody" := JStr "typed, not saved" ]})
      props_r1 initial_world = (Ok c', initial_world)
    ∧ get (state c') "reviewBody" = get review_r1 "body"
    ∧ (∀ k, k ≠ "reviewBody" →
         state c' !! k
           = state (setState form_r1
                      {[ "reviewBody" := JStr "typed, not saved" ]}) !! k)
    ∧ props c' = props form_r1
    ∧ localState c' = localState form_r1.
Proof.
  apply (componentWillReceiveProps_overwrites_body
           (setState form_r1 {[ "reviewBody" := JStr "typed, not saved" ]})
           props_r1 review_r1 initial_world).
  reflexivity.
Defined.

(** C10: when the body in the component state is the empty string or
    null at submit time, the review dispatched to the shared state and
    the parameters of the remote call both carry an undefined body, not
    an empty string. *)
Theorem onSubmit_drops_empty_body c r w :
  refreshAddon (props c) = Some external →
  updateReviewText (props c) = Some external →
  setDenormalizedReview (props c) = Some external →
  review (props c) = Some r →
  get (state c) "reviewBody" = JStr EmptyString
  ∨ get (state c) "reviewBody" = JNull →
  ∃ s w' evs updated,
    onSubmit c w = (Ok (c, s), w')
    ∧ trace w' = trace w ++ evs
    ∧ dispatched evs = [updated]
    ∧ remote_calls evs = [sub_params s]
    ∧ get updated "body" = JUndefined
    ∧ get (sub_params s) "body" = JUndefined
    ∧ get updated "body" ≠ JStr EmptyString
    ∧ get (sub_params s) "body" ≠ JStr EmptyString.
Proof.
  intros Hrefresh Hupdate Hset Hreview Hbody.
  pose proof (onSubmit_ok c r w Hrefresh Hupdate Hset Hreview) as Hsync.
  simpl in Hsync.
  assert (js_or (get (state c) "reviewBody") JUndefined = JUndefined) as Hor.
  { by destruct Hbody as [-> | ->]. }
  eexists _, _, _, _. split; [exact Hsync |].
  split; [reflexivity |]. simpl.
  rewrite updatedReview_body, submitParams_body, Hor.
  by repeat split.
Qed.

Lemma onSubmit_drops_empty_body_witness :
  ∃ s w' evs updated,
    onSubmit form_r1_empty initial_world = (Ok (form_r1_empty, s), w')
    ∧ trace w' = trace initial_world ++ evs
    ∧ dispatched evs = [updated]
    ∧ remote_calls evs = [sub_params s]
    ∧ get updated "body" = JUndefined
    ∧ get (sub_params s) "body" = JUndefined
    ∧ get updated "body" ≠ JStr EmptyString
    ∧ get (sub_params s) "body" ≠ JStr EmptyString.
Proof.
  apply (onSubmit_drops_empty_body form_r1_empty review_r1 initial_world);
    try reflexivity.
  left. reflexivity.
Defined.

(** What a rating selection does, whenever the dispatch function is
    there. *)
Lemma onSelectRating_run c rating w :
  setDenormalizedReview (props c) = Some external →
  onSelectRating c rating w =
    (Ok c,
     set_trace w
       (trace w ++
        [EvSetDenormalizedReview
           (<["rating" := JNum rating]>
            (<["body" := js_or (get (state c) "reviewBody") JUndefined]>
             (default ∅ (review (props c)))))])).
Proof.
  intros Hset. unfold onSelectRating. rewrite Hset. reflexivity.
Qed.

(** C6, as the spec states it, fails: selecting a rating does not touch
    the state of the component, which has no rating in it. *)
Lemma onSelectRating_state_not_updated :
  ¬ (∀ c rating w,
       setDenormalizedReview (props c) = Some external →
       ∃ c' w',
         onSelectRating c rating w = (Ok c', w')
         ∧ get (state c') "rating" = JNum rating).
Proof.
  intros Hclaim.
  destruct (Hclaim form_r1 4 initial_world eq_refl) as (c' & w' & Hrun & Hstate).
  rewrite onSelectRating_run in Hrun by reflexivity.
  inversion Hrun; subst c'. vm_compute in Hstate. discriminate.
Qed.

(** C6, amended: a rating selection leaves the state of the component as
    it is and dispatches to the shared state, at once, exactly one
    review: the review of the props overlaid with the current body (or
    undefined when that is empty) and the new rating.  No timer is set,
    nothing is stored and no remote call is made. *)
Theorem onSelectRating_dispatches_at_once c rating w :
  setDenormalizedReview (props c) = Some external →
  ∃ w' updated,
    onSelectRating c rating w = (Ok c, w')
    ∧ trace w' = trace w ++ [EvSetDenormalizedReview updated]
    ∧ get updated "rating" = JNum rating
    ∧ get updated "body" = js_or (get (state c) "reviewBody") JUndefined
    ∧ (∀ k, k ≠ "rating" → k ≠ "body" →
         updated !! k = default ∅ (review (props c)) !! k)
    ∧ pending w' = pending w
    ∧ storage w' = storage w
    ∧ now w' = now w.
Proof.
  intros Hset. eexists _, _.
  split; [by apply onSelectRating_run |]. simpl.
  split; [done |].
  split; [apply get_insert_eq |].
  split; [rewrite get_insert_ne by done; apply get_insert_eq |].
  split; [| done].
  intros k Hrating Hbody. by rewrite !lookup_insert_ne.
Qed.

Lemma onSelectRating_dispatches_at_once_witness :
  ∃ w' updated,
    onSelectRating form_r1 4 initial_world = (Ok form_r1, w')
    ∧ trace w' = trace initial_world ++ [EvSetDenormalizedReview updated]
    ∧ get updated "rating" = JNum 4
    ∧ get updated "body" = js_or (get (state form_r1) "reviewBody") JUndefined
    ∧ (∀ k, k ≠ "rating" → k ≠ "body" →
         updated !! k = default ∅ (review (props form_r1)) !! k)
    ∧ pending w' = pending initial_world
    ∧ storage w' = storage initial_world
    ∧ now w' = now initial_world.
Proof.
  apply (onSelectRating_dispatches_at_once form_r1 4 initial_world).
  reflexivity.
Defined.

(** A form can be mounted for a review that has no addon id, and a submit
    on it goes through: the review is dispatched and the remote call is
    made, with an undefined addon id. *)
Example onSubmit_without_addonId :
  ∃ m w1 s w2,
    mount props_no_addonId initial_world = (Ok m, w1)
    ∧ onSubmit (instance m) w1 = (Ok (instance m, s), w2)
    ∧ get (sub_params s) "addonId" = JUndefined
    ∧ dispatched (trace w2) = [<["body" := JStr "old"]> review_no_addonId]
    ∧ remote_calls (trace w2) = [sub_params s].
Proof.
  eexists _, _, _, _. split; [vm_compute; reflexivity |].
  split; [vm_compute; reflexivity |].
  repeat split; vm_compute; reflexivity.
Qed.

(** C7, as the spec states it, fails: [onSubmit] does not look at the
    identity fields of the review, and on a mounted form whose review has
    no addon id it does not throw. *)
Lemma onSubmit_does_not_validate_identity :
  ¬ (∀ p r w m w1,
       mount p w = (Ok m, w1) →
       review p = Some r →
       truthy (get r "id") = false ∨ truthy (get r "addonId") = false →
       ∃ e, onSubmit (instance m) w1 = (Throw e, w1)).
Proof.
  intros Hclaim.
  destruct onSubmit_without_addonId as (m & w1 & s & w2 & Hmount & Hok & _).
  destruct (Hclaim props_no_addonId review_no_addonId initial_world m w1
              Hmount eq_refl (or_intror eq_refl)) as (e & Hthrow).
  rewrite Hok in Hthrow. discriminate.
Qed.

(** C7, amended: what is validated of the review is validated when the
    form is rendered: [render] throws the unexpected-review error, before
    anything is called or changed, exactly when the review is missing or
    its id or its addon slug is falsy, so a form that has been mounted has
    a review with an id and an addon slug.  [onSubmit] validates first
    that the three injected functions are there, and fails with an
    invariant error before any state change, dispatch or remote call when
    one is missing. *)
Theorem identity_checked_on_render_functions_on_submit c w :
  (render c w = (Throw (UnexpectedReviewProperty (review (props c))), w)
   ↔ review (props c) = None
     ∨ ∃ r, review (props c) = Some r
            ∧ (truthy (get r "id") = false
               ∨ truthy (get r "addonSlug") = false))
  ∧ (∀ m w', mount (props c) w = (Ok m, w') →
       ∃ r, review (props c) = Some r
            ∧ truthy (get r "id") = true
            ∧ truthy (get r "addonSlug") = true)
  ∧ (refreshAddon (props c) = None
     ∨ updateReviewText (props c) = None
     ∨ setDenormalizedReview (props c) = None →
     ∃ message, onSubmit c w = (Throw (InvariantViolation message), w)).
Proof.
  split; [| split].
  - split.
    + intros Hthrow.
      destruct (review (props c)) as [r |] eqn:Hreview; [right | by left].
      exists r. split; [done |].
      destruct (truthy (get r "id")) eqn:Hid; [| by left].
      destruct (truthy (get r "addonSlug")) eqn:Hslug; [| by right].
      destruct (render_ok c r w Hreview) as (node & Hnode & _).
      { simpl. by rewrite Hid, Hslug. }
      rewrite Hnode in Hthrow. discriminate.
    + intros Hmissing. unfold render.
      assert (review_unusable (review (props c)) = true) as ->; [| done].
      destruct Hmissing as [-> | (r & -> & [Hid | Hslug])]; simpl.
      * done.
      * by rewrite Hid.
      * rewrite Hslug. by destruct (truthy (get r "id")).
  - intros m w' Hmount. unfold mount, constructor, construct in Hmount.
    destruct (review (props c)) as [r |] eqn:Hreview; [| discriminate].
    exists r. split; [done |].
    destruct (createLocalState (props c)) as [create |]; [| discriminate].
    unfold bind at 1 in Hmount. simpl in Hmount.
    unfold bind at 1 in Hmount. unfold render at 1 in Hmount.
    simpl in Hmount. rewrite Hreview in Hmount. simpl in Hmount.
    destruct (truthy (get r "id")), (truthy (get r "addonSlug"));
      done || discriminate.
  - intros Hmissing. unfold onSubmit.
    destruct (refreshAddon (props c)) as [refresh |];
      [| by eexists].
    destruct (updateReviewText (props c)) as [update |];
      [| by eexists].
    destruct (setDenormalizedReview (props c)) as [set |];
      [| by eexists].
    by destruct Hmissing as [? | [? | ?]].
Qed.

Lemma identity_checked_on_render_functions_on_submit_witness :
  render form_no_id initial_world
    = (Throw (UnexpectedReviewProperty (Some review_no_id)), initial_world)
  ∧ (∃ message,
      onSubmit
        {| props :=
             {| createLocalState := Some defaultLocalStateCreator;
                debounce := Some defaultDebounce;
                onEscapeOverlay := None;
                onReviewSubmitted := returns;
                review := Some review_r1;
                refreshAddon := Some external;
                setDenormalizedReview := Some external;
                updateReviewText := None;
                apiState := 1%positive;
                errorHandler := ErrorHandler.create 2;
                i18n := plain_i18n |};
           state := {[ "reviewBody" := JStr "old" ]};
           localState := LocalState.create "AddonReview:r1";
           reviewTextarea := true |}
        initial_world
      = (Throw (InvariantViolation message), initial_world))
  ∧ ∃ r, review (props form_r1) = Some r
         ∧ truthy (get r "id") = true
         ∧ truthy (get r "addonSlug") = true.
Proof.
  split; [| split].
  - apply (proj1 (identity_checked_on_render_functions_on_submit
                    form_no_id initial_world)).
    right. exists review_no_id. split; [reflexivity |]. left. reflexivity.
  - apply (proj2 (proj2 (identity_checked_on_render_functions_on_submit _ _))).
    right. left. reflexivity.
  - eapply (proj1 (proj2 (identity_checked_on_render_functions_on_submit
                            form_r1 initial_world))).
    vm_compute. reflexivity.
Defined.

(** The constructor seeds the state from the supplied review and starts
    the load. *)
Lemma constructor_run p r create w :
  review p = Some r →
  createLocalState p = Some create →
  let ls := create ("AddonReview:" +:+ to_string (get r "id")) in
  constructor p w =
    (Ok ({| props := p;
            state := {[ "reviewBody" := get r "body" ]};
            localState := ls;
            reviewTextarea := false |},
         storage w !! LocalState.id ls),
     set_trace w (trace w ++ [EvLocalLoad (LocalState.id ls)])).
Proof.
  intros Hreview Hcreate ls.
  unfold constructor, construct. rewrite Hreview, Hcreate. reflexivity.
Qed.

(** C4, as the spec states it, fails for the rating: the rating on
    display is the one of the supplied review, whatever the stored
    snapshot holds. *)
Lemma stored_rating_not_rendered :
  ¬ (∀ p r stored w,
       review p = Some r →
       review_unusable (Some r) = false →
       createLocalState p = Some defaultLocalStateCreator →
       storage w !! ("AddonReview:" +:+ to_string (get r "id")) = Some stored →
       ∃ m w',
         mount p w = (Ok m, w')
         ∧ rendered_body (settled_render m)
             = Some (AVal (get stored "reviewBody"))
         ∧ rendered_rating (settled_render m) = Some (get stored "rating")).
Proof.
  intros Hclaim.
  destruct (Hclaim props_r1 review_r1 stored_r1 world_with_draft
              eq_refl eq_refl eq_refl eq_refl)
    as (m & w' & Hmount & _ & Hrating).
  vm_compute in Hmount. inversion Hmount; subst m.
  vm_compute in Hrating. discriminate.
Qed.

(** C4, amended: when the store holds a snapshot for the form at
    construction, then once the load started by the constructor has
    resolved the snapshot is merged over the state seeded from the
    supplied review, so every field of the snapshot takes priority in the
    component state and the body on display is the stored one (the first
    render, which comes before, shows the supplied body); the rating on
    display stays the one of the supplied review. *)
Theorem constructor_recovers_stored_state p r create stored w :
  review p = Some r →
  review_unusable (Some r) = false →
  createLocalState p = Some create →
  storage w !! LocalState.id (create ("AddonReview:" +:+ to_string (get r "id")))
    = Some stored →
  ∃ m w',
    mount p w = (Ok m, w')
    ∧ state (instance m) = spread {[ "reviewBody" := get r "body" ]} stored
    ∧ (∀ k v, stored !! k = Some v → get (state (instance m)) k = v)
    ∧ rendered_body (first_render m) = Some (AVal (get r "body"))
    ∧ rendered_body (settled_render m)
        = Some (AVal (get (state (instance m)) "reviewBody"))
    ∧ rendered_rating (settled_render m) = Some (get r "rating")
    ∧ storage w' = storage w.
Proof.
  intros Hreview Husable Hcreate Hstored.
  pose proof (constructor_run p r create w Hreview Hcreate) as Hctor.
  simpl in Hctor. rewrite Hstored in Hctor.
  match type of Hctor with
  | _ = (Ok (?c0', _), ?w1') => set (c0 := c0') in *; set (w1 := w1') in *
  end.
  destruct (render_ok c0 r w1 Hreview Husable)
    as (first & Hfirst & _ & Hbody0 & _).
  set (c1 := {| props := p; state := state c0; localState := localState c0;
                reviewTextarea := true |}).
  set (w2 := set_trace w1 (trace w1 ++ [EvFocusTextarea])).
  set (w3 := set_trace w2
               (trace w2 ++
                [EvLogDebug
                   ("Initializing AddonReview state from LocalState "
                    +:+ LocalState.id (localState c1)) stored])).
  destruct (render_ok (setState c1 stored) r w3 Hreview Husable)
    as (settled & Hsettled & _ & Hbody & Hrating).
  exists {| instance := setState c1 stored; first_render := first;
            settled_render := settled |}, w3.
  split.
  { unfold mount. rewrite (bind_ok _ _ _ _ _ Hctor). simpl fst. simpl snd.
    rewrite (bind_ok _ _ _ _ _ Hfirst).
    rewrite (bind_ok _ _ w1 c1 w2) by reflexivity.
    rewrite (bind_ok _ _ w2 (setState c1 stored) w3) by reflexivity.
    by rewrite (bind_ok _ _ _ _ _ Hsettled). }
  simpl. split; [reflexivity |].
  split; [intros k v Hk; by apply get_spread_override |].
  split; [rewrite Hbody0; simpl; by rewrite get_singleton_eq |].
  by repeat split.
Qed.

Lemma constructor_recovers_stored_state_witness :
  ∃ m w',
    mount props_r1 world_with_draft = (Ok m, w')
    ∧ state (instance m)
        = spread {[ "reviewBody" := get review_r1 "body" ]} stored_r1
    ∧ (∀ k v, stored_r1 !! k = Some v → get (state (instance m)) k = v)
    ∧ rendered_body (first_render m) = Some (AVal (get review_r1 "body"))
    ∧ rendered_body (settled_render m)
        = Some (AVal (get (state (instance m)) "reviewBody"))
    ∧ rendered_rating (settled_render m) = Some (get review_r1 "rating")
    ∧ storage w' = storage world_with_draft.
Proof.
  apply (constructor_recovers_stored_state props_r1 review_r1
           defaultLocalStateCreator stored_r1 world_with_draft);
    reflexivity.
Defined.

(** *** Timers *)

(** A timer that is due no earlier than all the others goes last. *)
Lemma enqueue_last t q :
  Forall (λ u, deadline u ≤ deadline t) q → enqueue t q = q ++ [t].
Proof.
  induction 1 as [| u q Hu _ IH]; [done |]. simpl.
  rewrite (proj2 (Z.leb_le _ _) Hu). by rewrite IH.
Qed.

Lemma length_enqueue t q : length (enqueue t q) = S (length q).
Proof.
  induction q as [| u q IH]; [done |]. simpl.
  destruct (deadline u <=? deadline t); simpl; by rewrite ?IH.
Qed.

Lemma Forall_enqueue (P : Timeout → Prop) t q :
  P t → Forall P q → Forall P (enqueue t q).
Proof.
  intros Ht. induction 1 as [| u q Hu Hq IH]; simpl.
  - by constructor.
  - destruct (deadline u <=? deadline t); repeat constructor; done.
Qed.

Lemma filter_all {A} (P : A → Prop) `{∀ x, Decision (P x)} (l : list A) :
  Forall P l → filter P l = l.
Proof.
  induction 1 as [| x l Hx _ IH]; [done |].
  rewrite filter_cons_True by done. by rewrite IH.
Qed.

Lemma filter_none {A} (P : A → Prop) `{∀ x, Decision (P x)} (l : list A) :
  Forall (λ x, ¬ P x) l → filter P l = [].
Proof.
  induction 1 as [| x l Hx _ IH]; [done |].
  by rewrite filter_cons_False.
Qed.

Lemma Forall_filter_keep {A} (P Q : A → Prop) `{∀ x, Decision (Q x)}
    (l : list A) :
  Forall P l → Forall P (filter Q l).
Proof.
  induction 1 as [| x l Hx _ IH]; [constructor |].
  rewrite filter_cons. destruct (decide (Q x)); [by constructor | done].
Qed.

(** Firing timers never fails; it stores each argument and touches
    neither the queue nor the clock. *)
Lemma fire_all_run ts :
  ∀ w, ∃ w',
    fire_all ts w = (Ok tt, w')
    ∧ trace w' = trace w ++ map fired ts
    ∧ pending w' = pending w
    ∧ now w' = now w
    ∧ nextDebounced w' = nextDebounced w
    ∧ handled w' = handled w.
Proof.
  induction ts as [| t ts IH]; intros w.
  - exists w. simpl. by rewrite app_nil_r.
  - simpl. unfold bind at 1. destruct t as [fn d [id] arg]. simpl.
    unfold LocalState.save, bind, emit. simpl.
    destruct (IH (set_storage (set_trace w (trace w ++ [EvLocalSave id arg]))
                    (<[id := arg]> (storage w))))
      as (w' & Hrun & Htrace & Hrest).
    exists w'. split; [exact Hrun |]. split; [| exact Hrest].
    rewrite Htrace. simpl. by rewrite <- app_assoc.
Qed.

(** After a run of timers that ends with a save under [id], the store
    holds what that last timer saved. *)
Lemma fire_all_last ts id arg fn d w w' :
  fire_all (ts ++ [mkTimeout fn d (SaveStateTo id) arg]) w = (Ok tt, w') →
  storage w' !! id = Some arg.
Proof.
  revert w. induction ts as [| t ts IH]; intros w.
  - simpl. unfold bind, LocalState.save, bind, emit, ret. simpl.
    intros [= <-]. simpl. apply lookup_insert_eq.
  - simpl. unfold bind at 1.
    destruct (invoke (callback t) (argument t) w) as [[[] | e] w1] eqn:Hinvoke.
    + apply IH.
    + destruct t as [fn' d' [id'] arg']. discriminate.
Qed.

(** What an edit does to the world: a new debounced function is made and
    called once, which sets its timer. *)
Lemma onBodyInput_run c value w :
  debounce (props c) = Some defaultDebounce →
  onBodyInput c value w =
    (Ok (setState c {[ "reviewBody" := JStr value ]}),
     set_pending (set_nextDebounced w (S (nextDebounced w)))
       (enqueue
          {| owner := nextDebounced w; deadline := now w + 800;
             callback := SaveStateTo (LocalState.id (localState c));
             argument := {[ "reviewBody" := JStr value ]} |}
          (filter (λ u, owner u ≠ nextDebounced w) (pending w)))).
Proof.
  intros Hdebounce. unfold onBodyInput. rewrite Hdebounce. reflexivity.
Qed.

(** C5, as the spec states it, fails: the snapshot that an edit stores
    has no rating (and no id) in it. *)
Lemma saved_snapshot_lacks_rating :
  ¬ (∀ c r value w t,
       debounce (props c) = Some defaultDebounce →
       review (props c) = Some r →
       pending w = [] →
       now w + 800 ≤ t →
       ∃ c' w' snapshot,
         edit_then_advance c value t w = (Ok c', w')
         ∧ storage w' !! LocalState.id (localState c) = Some snapshot
         ∧ get snapshot "id" = get r "id"
         ∧ get snapshot "reviewBody" = JStr value
         ∧ get snapshot "rating" = get r "rating").
Proof.
  intros Hclaim.
  destruct (Hclaim form_r1 review_r1 "great addon" initial_world 801
              eq_refl eq_refl eq_refl)
    as (c' & w' & snapshot & Hrun & Hstored & _ & _ & Hrating);
    [done |].
  vm_compute in Hrun. inversion Hrun; subst w'.
  vm_compute in Hstored. inversion Hstored; subst snapshot.
  vm_compute in Hrating. discriminate.
Qed.

(** C5, amended: the save that a body edit schedules persists, once its
    800 ms have passed, the object holding the edited body alone (under
    [reviewBody]) in the entry of the form's local state, whose key is
    derived from the review id; the rating and the id are not part of
    what is stored.  The component state has the new body at once. *)
Theorem onBodyInput_saves_body_only c value w t :
  debounce (props c) = Some defaultDebounce →
  Forall (λ u, deadline u ≤ now w + 800) (pending w) →
  now w + 800 ≤ t →
  ∃ c' w' earlier,
    edit_then_advance c value t w = (Ok c', w')
    ∧ get (state c') "reviewBody" = JStr value
    ∧ trace w' =
        trace w ++ earlier ++
        [EvLocalSave (LocalState.id (localState c))
           {[ "reviewBody" := JStr value ]}]
    ∧ storage w' !! LocalState.id (localState c)
        = Some {[ "reviewBody" := JStr value ]}
    ∧ pending w' = [].
Proof.
  intros Hdebounce Hpending Ht.
  pose proof (onBodyInput_run c value w Hdebounce) as Hedit.
  set (others := filter (λ u, owner u ≠ nextDebounced w) (pending w)) in *.
  set (timer := {| owner := nextDebounced w; deadline := now w + 800;
                   callback := SaveStateTo (LocalState.id (localState c));
                   argument := {[ "reviewBody" := JStr value ]} |}) in *.
  assert (Forall (λ u, deadline u ≤ now w + 800) others) as Hothers
    by by apply Forall_filter_keep.
  rewrite (enqueue_last timer others Hothers) in Hedit.
  assert (Forall (λ u, deadline u ≤ t) (others ++ [timer])) as Hdue.
  { apply Forall_app. split.
    - eapply Forall_impl; [exact Hothers |]. simpl. intros u Hu. lia.
    - repeat constructor. simpl. lia. }
  unfold edit_then_advance. rewrite (bind_ok _ _ _ _ _ Hedit).
  unfold bind at 1. unfold advance. cbn [pending set_pending].
  rewrite (filter_all _ _ Hdue).
  rewrite filter_none
    by (eapply Forall_impl; [exact Hdue |]; simpl; intros u Hu Hn; done).
  match goal with
  | |- context [fire_all ?ts ?w0] =>
      destruct (fire_all_run ts w0) as (w' & Hfire & Htrace & Hqueue & _)
  end.
  rewrite Hfire. unfold ret.
  eexists _, w', (map fired others).
  split; [reflexivity |].
  split; [apply get_spread_override, lookup_singleton_eq |].
  split; [rewrite Htrace; simpl; by rewrite map_app |].
  split; [by eapply fire_all_last |].
  by rewrite Hqueue.
Qed.

Lemma onBodyInput_saves_body_only_witness :
  ∃ c' w' earlier,
    edit_then_advance form_r1 "great addon" 801 initial_world = (Ok c', w')
    ∧ get (state c') "reviewBody" = JStr "great addon"
    ∧ trace w' =
        trace initial_world ++ earlier ++
        [EvLocalSave "AddonReview:r1" {[ "reviewBody" := JStr "great addon" ]}]
    ∧ storage w' !! "AddonReview:r1"
        = Some {[ "reviewBody" := JStr "great addon" ]}
    ∧ pending w' = [].
Proof.
  apply (onBodyInput_saves_body_only form_r1 "great addon" initial_world 801).
  - reflexivity.
  - constructor.
  - vm_compute. discriminate.
Defined.

(** *** Every edit is saved *)

Lemma saves_app t1 t2 : saves (t1 ++ t2) = saves t1 ++ saves t2.
Proof. apply omap_app. Qed.

Lemma saves_fired ts :
  saves (map fired ts)
    = map (λ t, match callback t with
                | SaveStateTo id => (id, argument t)
                end) ts.
Proof.
  induction ts as [| [fn d [id] arg] ts IH]; [done |].
  change (saves (EvLocalSave id arg :: map fired ts)
          = (id, arg) :: map (λ t, match callback t with
                                   | SaveStateTo id => (id, argument t)
                                   end) ts).
  by rewrite <- IH.
Qed.

Lemma length_saves_fired ts : length (saves (map fired ts)) = length ts.
Proof. by rewrite saves_fired, length_map. Qed.

Lemma length_filter_split {A} (P : A → Prop) `{∀ x, Decision (P x)}
    (l : list A) :
  (length (filter P l) + length (filter (λ x, ¬ P x) l) = length l)%nat.
Proof.
  rewrite <- length_app. apply Permutation_length, filter_app_complement.
Qed.

(** The clock reaching [t] fires the timers due by then and keeps the
    others. *)
Lemma advance_run t w :
  ∃ w',
    advance t w = (Ok tt, w')
    ∧ trace w' = trace w ++ map fired (filter (λ u, deadline u ≤ t) (pending w))
    ∧ pending w' = filter (λ u, ¬ (deadline u ≤ t)) (pending w)
    ∧ now w' = Z.max (now w) t
    ∧ nextDebounced w' = nextDebounced w.
Proof.
  unfold advance.
  match goal with
  | |- context [fire_all ?ts ?w0] =>
      destruct (fire_all_run ts w0)
        as (w' & Hfire & Htrace & Hqueue & Hnow & Hnext & _)
  end.
  exists w'. by repeat split.
Qed.

Lemma type_all_run edits :
  ∀ c w,
    debounce (props c) = Some defaultDebounce →
    Forall (λ e, 0 ≤ fst e) edits →
    timers_ok w →
    ∃ c' w' evs,
      type_all c edits w = (Ok c', w')
      ∧ trace w' = trace w ++ evs
      ∧ timers_ok w'
      ∧ (length (saves evs) + length (pending w')
         = length (pending w) + length edits)%nat.
Proof.
  induction edits as [| [delay value] edits IH];
    intros c w Hdebounce Hdelays [Howner Hdue].
  - exists c, w, []. simpl. rewrite app_nil_r. by repeat split.
  - apply Forall_cons in Hdelays as [Hdelay Hdelays]. simpl in Hdelay.
    destruct (advance_run (now w + delay) w)
      as (w1 & Hwait & Htrace1 & Hqueue1 & Hnow1 & Hnext1).
    pose proof (onBodyInput_run c value w1 Hdebounce) as Hedit.
    assert (Forall (λ u, (owner u < nextDebounced w1)%nat) (pending w1))
      as Howner1.
    { rewrite Hqueue1, Hnext1. by apply Forall_filter_keep. }
    assert (Forall (λ u, deadline u ≤ now w1 + 800) (pending w1)) as Hdue1.
    { rewrite Hqueue1, Hnow1. apply Forall_filter_keep.
      eapply Forall_impl; [exact Hdue |]. simpl. intros u Hu. lia. }
    rewrite (filter_all (λ u, owner u ≠ nextDebounced w1)) in Hedit
      by (eapply Forall_impl; [exact Howner1 |]; simpl; intros u Hu; lia).
    match type of Hedit with
    | _ = (Ok ?c1', ?w2') => set (c1 := c1') in *; set (w2 := w2') in *
    end.
    destruct (IH c1 w2) as (c' & w' & evs & Hrest & Htrace & Hok & Hcount).
    { exact Hdebounce. }
    { exact Hdelays. }
    { split; simpl.
      - apply Forall_enqueue; [simpl; lia |].
        eapply Forall_impl; [exact Howner1 |]. simpl. intros u Hu. lia.
      - by apply Forall_enqueue. }
    exists c', w', (map fired (filter (λ u, deadline u ≤ now w + delay)
                                 (pending w)) ++ evs).
    split.
    { simpl. unfold wait. unfold bind at 1. rewrite Hwait.
      rewrite (bind_ok _ _ _ _ _ Hedit). exact Hrest. }
    split.
    { rewrite Htrace. simpl. rewrite Htrace1. by rewrite <- app_assoc. }
    split; [exact Hok |].
    rewrite saves_app, length_app, length_saves_fired.
    simpl in Hcount. rewrite length_enqueue, Hqueue1 in Hcount.
    pose proof (length_filter_split (λ u, deadline u ≤ now w + delay)
                  (pending w)) as Hsplit.
    simpl. lia.
Qed.

(** However close together the edits come, each one is saved on its own:
    after the idle period the trace has as many saves as there were edits
    (and timers already waiting). *)
Lemma every_edit_is_saved c edits w :
  debounce (props c) = Some defaultDebounce →
  Forall (λ e, 0 ≤ fst e) edits →
  timers_ok w →
  ∃ c' w' evs,
    type_then_idle c edits w = (Ok c', w')
    ∧ trace w' = trace w ++ evs
    ∧ length (saves evs) = (length (pending w) + length edits)%nat
    ∧ pending w' = [].
Proof.
  intros Hdebounce Hdelays Hok.
  destruct (type_all_run edits c w Hdebounce Hdelays Hok)
    as (c' & w1 & evs & Hrun & Htrace & [_ Hdue] & Hcount).
  destruct (advance_run (now w1 + 800) w1)
    as (w' & Hwait & Htrace' & Hqueue' & _).
  rewrite (filter_all _ _ Hdue) in Htrace'.
  rewrite filter_none in Hqueue'
    by (eapply Forall_impl; [exact Hdue |]; simpl; intros u Hu Hn; done).
  exists c', w', (evs ++ map fired (pending w1)).
  split.
  { unfold type_then_idle. rewrite (bind_ok _ _ _ _ _ Hrun).
    unfold wait. unfold bind. by rewrite Hwait. }
  split; [rewrite Htrace', Htrace; by rewrite <- app_assoc |].
  split; [| exact Hqueue'].
  rewrite saves_app, length_app, length_saves_fired. lia.
Qed.

(** C1, on the code: two edits 100 ms apart, inside one debounce period,
    are followed by two saves, the first with the superseded body; the
    store ends with the body of the last edit. *)
Theorem two_edits_two_saves :
  ∃ c' w',
    type_then_idle form_r1 two_edits initial_world = (Ok c', w')
    ∧ saves (trace w') =
        [("AddonReview:r1", {[ "reviewBody" := JStr "a" ]});
         ("AddonReview:r1", {[ "reviewBody" := JStr "ab" ]})]
    ∧ storage w' !! "AddonReview:r1" = Some {[ "reviewBody" := JStr "ab" ]}.
Proof.
  eexists _, _. split; [vm_compute; reflexivity |].
  split; vm_compute; reflexivity.
Qed.

End AddonReviewFacts.

(** ** The review form: life cycle, edge cases and compositions *)

Module AddonReviewLifecycle.

Import AddonReview Samples AddonReviewFacts.

(** What a mount does, whatever the store holds for the form. *)
Lemma mount_run p r create w :
  review p = Some r →
  review_unusable (Some r) = false →
  createLocalState p = Some create →
  let ls := create ("AddonReview:" +:+ to_string (get r "id")) in
  let loaded := storage w !! LocalState.id ls in
  let seeded : obj := {[ "reviewBody" := get r "body" ]} in
  let c :=
    {| props := p;
       state := match loaded with
                | Some stored => spread seeded stored
                | None => seeded
                end;
       localState := ls;
       reviewTextarea := true |} in
  ∃ first settled,
    mount p w =
      (Ok {| instance := c; first_render := first; settled_render := settled |},
       set_trace w
         (trace w ++
          [EvLocalLoad (LocalState.id ls); EvFocusTextarea] ++
          match loaded with
          | Some stored =>
              [EvLogDebug
                 ("Initializing AddonReview state from LocalState "
                  +:+ LocalState.id ls) stored]
          | None => []
          end))
    ∧ rendered_body first = Some (AVal (get r "body"))
    ∧ rendered_rating first = Some (get r "rating")
    ∧ rendered_body settled = Some (AVal (get (state c) "reviewBody"))
    ∧ rendered_rating settled = Some (get r "rating").
Proof.
  intros Hreview Husable Hcreate ls loaded seeded c.
  pose proof (constructor_run p r create w Hreview Hcreate) as Hctor.
  simpl in Hctor. fold ls loaded in Hctor.
  match type of Hctor with
  | _ = (Ok (?c0', _), ?w1') => set (c0 := c0') in *; set (w1 := w1') in *
  end.
  destruct (render_ok c0 r w1 Hreview Husable)
    as (first & Hfirst & _ & Hbody0 & Hrating0).
  set (c1 := {| props := p; state := state c0; localState := ls;
                reviewTextarea := true |}).
  set (w2 := set_trace w1 (trace w1 ++ [EvFocusTextarea])).
  assert (∃ w3, checkForStoredState_then c1 loaded w2 = (Ok c, w3)
                ∧ w3 = set_trace w
                         (trace w ++
                          [EvLocalLoad (LocalState.id ls); EvFocusTextarea] ++
                          match loaded with
                          | Some stored =>
                              [EvLogDebug
                                 ("Initializing AddonReview state from LocalState "
                                  +:+ LocalState.id ls) stored]
                          | None => []
                          end)) as (w3 & Hthen & Hw3).
  { unfold checkForStoredState_then, c. destruct loaded as [stored |].
    - eexists. split; [reflexivity |].
      unfold set_trace; simpl. by rewrite <- !app_assoc.
    - eexists. split; [reflexivity |].
      unfold w2, w1, set_trace; simpl. by rewrite <- !app_assoc. }
  destruct (render_ok c r w3 Hreview Husable)
    as (settled & Hsettled & _ & Hbody & Hrating).
  exists first, settled. split.
  { unfold mount. rewrite (bind_ok _ _ _ _ _ Hctor). simpl fst. simpl snd.
    rewrite (bind_ok _ _ _ _ _ Hfirst).
    rewrite (bind_ok _ _ w1 c1 w2) by reflexivity.
    rewrite (bind_ok _ _ _ _ _ Hthen).
    rewrite (bind_ok _ _ _ _ _ Hsettled). unfold ret. by rewrite Hw3. }
  split; [rewrite Hbody0; simpl; by rewrite get_singleton_eq |].
  by repeat split.
Qed.

(** With nothing stored for the form, a mount shows the supplied review
    from the first render on: the state is the body of the supplied review,
    the load is the only call to the store, the textarea is focused once,
    and neither the store nor the timers change. *)
Theorem mount_without_stored_state p r create w :
  review p = Some r →
  review_unusable (Some r) = false →
  createLocalState p = Some create →
  storage w !! LocalState.id (create ("AddonReview:" +:+ to_string (get r "id")))
    = None →
  ∃ m w',
    mount p w = (Ok m, w')
    ∧ state (instance m) = {[ "reviewBody" := get r "body" ]}
    ∧ rendered_body (first_render m) = Some (AVal (get r "body"))
    ∧ rendered_body (settled_render m) = Some (AVal (get r "body"))
    ∧ trace w' =
        trace w ++
        [EvLocalLoad
           (LocalState.id (create ("AddonReview:" +:+ to_string (get r "id"))));
         EvFocusTextarea]
    ∧ storage w' = storage w
    ∧ pending w' = pending w.
Proof.
  intros Hreview Husable Hcreate Hnone.
  destruct (mount_run p r create w Hreview Husable Hcreate)
    as (first & settled & Hmount & Hfirst & _ & Hsettled & _).
  simpl in Hmount, Hsettled. rewrite Hnone in Hmount, Hsettled.
  eexists _, _. split; [exact Hmount |]. simpl.
  rewrite Hsettled, get_singleton_eq. by repeat split.
Qed.

Lemma mount_without_stored_state_witness :
  ∃ m w',
    mount props_r1 initial_world = (Ok m, w')
    ∧ state (instance m) = {[ "reviewBody" := get review_r1 "body" ]}
    ∧ rendered_body (first_render m) = Some (AVal (get review_r1 "body"))
    ∧ rendered_body (settled_render m) = Some (AVal (get review_r1 "body"))
    ∧ trace w' =
        trace initial_world ++
        [EvLocalLoad
           (LocalState.id
              (defaultLocalStateCreator
                 ("AddonReview:" +:+ to_string (get review_r1 "id"))));
         EvFocusTextarea]
    ∧ storage w' = storage initial_world
    ∧ pending w' = pending initial_world.
Proof.
  apply (mount_without_stored_state props_r1 review_r1
           defaultLocalStateCreator initial_world); reflexivity.
Defined.

(** A stored snapshot that has no [reviewBody] in it does not touch the
    body: its fields are merged into the component state, and the form
    keeps showing the body of the supplied review. *)
Theorem mount_with_snapshot_without_body p r create stored w :
  review p = Some r →
  review_unusable (Some r) = false →
  createLocalState p = Some create →
  storage w !! LocalState.id (create ("AddonReview:" +:+ to_string (get r "id")))
    = Some stored →
  stored !! "reviewBody" = None →
  ∃ m w',
    mount p w = (Ok m, w')
    ∧ get (state (instance m)) "reviewBody" = get r "body"
    ∧ rendered_body (settled_render m) = Some (AVal (get r "body"))
    ∧ (∀ k v, stored !! k = Some v → state (instance m) !! k = Some v)
    ∧ storage w' = storage w.
Proof.
  intros Hreview Husable Hcreate Hstored Hnobody.
  destruct (mount_run p r create w Hreview Husable Hcreate)
    as (first & settled & Hmount & _ & _ & Hsettled & _).
  simpl in Hmount, Hsettled. rewrite Hstored in Hmount, Hsettled.
  assert (get (spread ({[ "reviewBody" := get r "body" ]} : obj) stored)
            "reviewBody" = get r "body") as Hbody.
  { rewrite get_spread_base by done. apply get_singleton_eq. }
  eexists _, _. split; [exact Hmount |]. simpl.
  split; [exact Hbody |].
  split; [by rewrite Hsettled, Hbody |].
  split; [| done].
  intros k v Hk. unfold spread. by apply lookup_union_Some_l.
Qed.

Lemma mount_with_snapshot_without_body_witness :
  ∃ m w',
    mount props_r1 world_with_foreign_snapshot = (Ok m, w')
    ∧ get (state (instance m)) "reviewBody" = get review_r1 "body"
    ∧ rendered_body (settled_render m) = Some (AVal (get review_r1 "body"))
    ∧ (∀ k v, ({[ "rating" := JNum 2 ]} : obj) !! k = Some v →
              state (instance m) !! k = Some v)
    ∧ storage w' = storage world_with_foreign_snapshot.
Proof.
  apply (mount_with_snapshot_without_body props_r1 review_r1
           defaultLocalStateCreator {[ "rating" := JNum 2 ]}
           world_with_foreign_snapshot); reflexivity.
Defined.

(** The constructor fails exactly when the review or [createLocalState]
    is missing, and then before anything is called: the store is not read.
    A missing review is what it reports first. *)
Theorem constructor_fails_iff_missing p w :
  ((∃ e, constructor p w = (Throw e, w))
   ↔ (review p = None ∨ createLocalState p = None))
  ∧ (∀ e w', constructor p w = (Throw e, w') → w' = w)
  ∧ (review p = None →
     constructor p w
       = (Throw (TypeError "Cannot read property 'body' of undefined"), w)).
Proof.
  unfold constructor, construct.
  destruct (review p) as [r |], (createLocalState p) as [create |]; simpl.
  - split; [| split].
    + split; [intros [e He]; discriminate | intros [? | ?]; discriminate].
    + intros e w' He. discriminate.
    + discriminate.
  - split; [| split].
    + split; [by right | by eexists].
    + by intros e w' [= _ <-].
    + discriminate.
  - split; [| split].
    + split; [by left | by eexists].
    + by intros e w' [= _ <-].
    + done.
  - split; [| split].
    + split; [by left | by eexists].
    + by intros e w' [= _ <-].
    + done.
Qed.

(** A render succeeds exactly when the review is there with a truthy id
    and a truthy addon slug (an id 0 or an empty slug count as missing),
    and it never changes anything outside the component. *)
Theorem render_succeeds_iff_usable c w :
  ((∃ node, render c w = (Ok node, w))
   ↔ (∃ r, review (props c) = Some r
           ∧ truthy (get r "id") = true
           ∧ truthy (get r "addonSlug") = true))
  ∧ (∀ res w', render c w = (res, w') → w' = w).
Proof.
  split.
  - split.
    + intros [node Hnode]. unfold render in Hnode.
      destruct (review (props c)) as [r |] eqn:Hreview; [| discriminate].
      simpl in Hnode. exists r.
      destruct (truthy (get r "id")), (truthy (get r "addonSlug"));
        done || discriminate.
    + intros (r & Hreview & Hid & Hslug).
      destruct (render_ok c r w Hreview) as (node & Hnode & _).
      { simpl. by rewrite Hid, Hslug. }
      by exists node.
  - intros res w'. unfold render.
    destruct (review_unusable (review (props c))).
    + by intros [= _ <-].
    + unfold bind, ErrorHandler.renderErrorIfPresent, ret.
      destruct (handled w !! _); by intros [= _ <-].
Qed.

(** Ratings above 3 get the enthusiastic prompt and placeholder; every
    other rating, as well as no rating at all, gets the neutral ones. *)
Theorem render_prompt_by_rating c r w :
  review (props c) = Some r →
  review_unusable (Some r) = false →
  (∃ n, get r "rating" = JNum n)
  ∨ get r "rating" = JNull ∨ get r "rating" = JUndefined →
  let enthusiastic :=
    match get r "rating" with
    | JNum n => bool_decide (3 < n)
    | _ => false
    end in
  let i18n := i18n (props c) in
  ∃ node,
    render c w = (Ok node, w)
    ∧ rendered_placeholder node
        = Some (AStr (gettext i18n (if enthusiastic then placeholder_love
                                    else placeholder_experience)))
    ∧ rendered_prompt node
        = Some (AHtml
                  (sprintf i18n
                     (gettext i18n (if enthusiastic then prompt_fantastic
                                    else prompt_plain))
                     [("linkStart",
                       "<a href=" +:+ dquote +:+ "/review_guide" +:+ dquote
                       +:+ ">");
                      ("linkEnd", "</a>")])
                  ["a"]).
Proof.
  intros Hreview Husable Hrating enthusiastic i18n.
  assert (truthy (js_and (get r "rating") (js_gt (get r "rating") 3))
          = enthusiastic) as Hsame.
  { unfold enthusiastic.
    destruct Hrating as [[n ->] | [-> | ->]]; [| done | done].
    unfold js_and, js_gt. simpl.
    destruct (Z.eqb_spec n 0) as [-> | Hn]; simpl; [done |].
    destruct (Z.ltb_spec 3 n); by rewrite ?bool_decide_eq_true_2,
      ?bool_decide_eq_false_2 by lia. }
  unfold render. rewrite Hreview, Husable. simpl. rewrite Hsame.
  unfold bind, ErrorHandler.renderErrorIfPresent.
  destruct (handled w !! _); unfold ret; eexists;
    (split; [reflexivity |]); by split.
Qed.

Lemma render_prompt_by_rating_witness :
  ∃ node,
    render form_r1 initial_world = (Ok node, initial_world)
    ∧ rendered_placeholder node = Some (AStr placeholder_love)
    ∧ rendered_prompt node = Some (AHtml prompt_fantastic ["a"]).
Proof.
  apply (render_prompt_by_rating form_r1 review_r1 initial_world);
    [reflexivity | reflexivity |].
  left. exists 5. reflexivity.
Defined.

(** *** Submitting *)

Lemma get_submitParams p r body :
  get (submitParams p r body) "reviewId" = get r "id"
  ∧ get (submitParams p r body) "addonId" = get r "addonId"
  ∧ get (submitParams p r body) "rating" = get r "rating"
  ∧ get (submitParams p r body) "apiState" = JRef (apiState p).
Proof.
  unfold submitParams, newReviewParams.
  rewrite !get_spread_base by done.
  repeat split; rewrite ?get_insert_ne by done;
    apply get_insert_eq || apply get_singleton_eq.
Qed.

(** A submit whose remote call succeeds, from start to end. *)
Lemma submit_fulfilled_run c r w :
  refreshAddon (props c) = Some external →
  updateReviewText (props c) = Some external →
  setDenormalizedReview (props c) = Some external →
  onReviewSubmitted (props c) = returns →
  review (props c) = Some r →
  let body := get (state c) "reviewBody" in
  let key := LocalState.id (localState c) in
  submit c Fulfilled w =
    (Ok c,
     set_storage
       (set_trace w
          (trace w ++
           [EvPreventDefault; EvStopPropagation;
            EvSetDenormalizedReview (updatedReview r body);
            EvUpdateReviewText (submitParams (props c) r body);
            EvReviewSubmitted;
            EvLocalClear key;
            EvRefreshAddon
              (<["addonSlug" := get r "addonSlug"]>
               {[ "apiState" := JRef (apiState (props c)) ]})]))
       (delete key (storage w))).
Proof.
  intros Hrefresh Hupdate Hset Hreturns Hreview body key.
  pose proof (onSubmit_ok c r w Hrefresh Hupdate Hset Hreview) as Hsync.
  simpl in Hsync. unfold submit.
  rewrite (bind_ok _ _ _ _ _ Hsync). simpl.
  unfold bind at 1. unfold ret at 1.
  unfold bind at 1. rewrite onSubmit_then_run by exact Hreturns.
  unfold ret. simpl.
  unfold set_storage, set_trace. simpl. by rewrite <- !app_assoc.
Qed.

(** A submit whose remote call fails, from start to end. *)
Lemma submit_rejected_run c r w error :
  refreshAddon (props c) = Some external →
  updateReviewText (props c) = Some external →
  setDenormalizedReview (props c) = Some external →
  review (props c) = Some r →
  let body := get (state c) "reviewBody" in
  submit c (Rejected error) w =
    (Throw (Rejection error),
     set_handled
       (set_trace w
          (trace w ++
           [EvPreventDefault; EvStopPropagation;
            EvSetDenormalizedReview (updatedReview r body);
            EvUpdateReviewText (submitParams (props c) r body)]))
       (<[ErrorHandler.id (errorHandler (props c)) := error]> (handled w))).
Proof.
  intros Hrefresh Hupdate Hset Hreview body.
  pose proof (onSubmit_ok c r w Hrefresh Hupdate Hset Hreview) as Hsync.
  simpl in Hsync. unfold submit.
  rewrite (bind_ok _ _ _ _ _ Hsync). simpl.
  unfold settle_updateReviewText. rewrite submitParams_errorHandler.
  reflexivity.
Qed.

(** With a body typed in, a submit first dispatches the optimistic review
    and then makes the remote call, and touches neither the store nor the
    timers nor the component.  The optimistic review is the review of the
    props with the typed body; the remote call gets the typed body along
    with the id, the addon id and the rating of the review of the props. *)
Theorem onSubmit_sends_typed_body c r w :
  refreshAddon (props c) = Some external →
  updateReviewText (props c) = Some external →
  setDenormalizedReview (props c) = Some external →
  review (props c) = Some r →
  truthy (get (state c) "reviewBody") = true →
  ∃ s w' updated,
    onSubmit c w = (Ok (c, s), w')
    ∧ trace w' =
        trace w ++ [EvPreventDefault; EvStopPropagation;
                    EvSetDenormalizedReview updated;
                    EvUpdateReviewText (sub_params s)]
    ∧ get updated "body" = get (state c) "reviewBody"
    ∧ (∀ k, k ≠ "body" → updated !! k = r !! k)
    ∧ get (sub_params s) "body" = get (state c) "reviewBody"
    ∧ get (sub_params s) "reviewId" = get r "id"
    ∧ get (sub_params s) "addonId" = get r "addonId"
    ∧ get (sub_params s) "rating" = get r "rating"
    ∧ storage w' = storage w
    ∧ pending w' = pending w.
Proof.
  intros Hrefresh Hupdate Hset Hreview Hbody.
  pose proof (onSubmit_ok c r w Hrefresh Hupdate Hset Hreview) as Hsync.
  simpl in Hsync.
  destruct (get_submitParams (props c) r (get (state c) "reviewBody"))
    as (Hid & Haddon & Hrating & _).
  eexists _, _, _. split; [exact Hsync |]. simpl.
  split; [reflexivity |].
  split; [rewrite updatedReview_body; unfold js_or; by rewrite Hbody |].
  split.
  { intros k Hk. unfold updatedReview, spread, newReviewParams.
    rewrite lookup_union_r; [done |]. by apply lookup_singleton_ne. }
  split; [rewrite submitParams_body; unfold js_or; by rewrite Hbody |].
  by repeat split.
Qed.

Lemma onSubmit_sends_typed_body_witness :
  ∃ s w' updated,
    onSubmit form_r1 initial_world = (Ok (form_r1, s), w')
    ∧ trace w' =
        trace initial_world ++ [EvPreventDefault; EvStopPropagation;
                                EvSetDenormalizedReview updated;
                                EvUpdateReviewText (sub_params s)]
    ∧ get updated "body" = get (state form_r1) "reviewBody"
    ∧ (∀ k, k ≠ "body" → updated !! k = review_r1 !! k)
    ∧ get (sub_params s) "body" = get (state form_r1) "reviewBody"
    ∧ get (sub_params s) "reviewId" = get review_r1 "id"
    ∧ get (sub_params s) "addonId" = get review_r1 "addonId"
    ∧ get (sub_params s) "rating" = get review_r1 "rating"
    ∧ storage w' = storage initial_world
    ∧ pending w' = pending initial_world.
Proof.
  apply (onSubmit_sends_typed_body form_r1 review_r1 initial_world);
    reflexivity.
Defined.

(** Without a review in the props, a submit still suppresses the default
    handling of the event and then fails with a type error: nothing is
    dispatched, and no remote call is made. *)
Theorem onSubmit_without_review c w :
  refreshAddon (props c) = Some external →
  updateReviewText (props c) = Some external →
  setDenormalizedReview (props c) = Some external →
  review (props c) = None →
  ∃ message w',
    onSubmit c w = (Throw (TypeError message), w')
    ∧ trace w' = trace w ++ [EvPreventDefault; EvStopPropagation]
    ∧ storage w' = storage w.
Proof.
  intros Hrefresh Hupdate Hset Hreview.
  unfold onSubmit. rewrite Hrefresh, Hupdate, Hset, Hreview.
  eexists _, _. split; [reflexivity |]. simpl.
  split; [by rewrite <- app_assoc | done].
Qed.

Lemma onSubmit_without_review_witness :
  ∃ message w',
    onSubmit form_no_review initial_world = (Throw (TypeError message), w')
    ∧ trace w' = trace initial_world ++ [EvPreventDefault; EvStopPropagation]
    ∧ storage w' = storage initial_world.
Proof.
  apply (onSubmit_without_review form_no_review initial_world); reflexivity.
Defined.

(** On a success whose completion callback returns, the completion
    callback is called first, then the entry of the form is cleared, then
    the addon is refreshed with the slug of the review and the API state;
    every other entry of the store stays as it was, and no timer is
    touched. *)
Theorem submit_success_order c r w :
  refreshAddon (props c) = Some external →
  updateReviewText (props c) = Some external →
  setDenormalizedReview (props c) = Some external →
  onReviewSubmitted (props c) = returns →
  review (props c) = Some r →
  ∃ w' submitted refreshed,
    submit c Fulfilled w = (Ok c, w')
    ∧ trace w' =
        trace w ++ submitted ++
        [EvReviewSubmitted;
         EvLocalClear (LocalState.id (localState c));
         EvRefreshAddon refreshed]
    ∧ completions submitted = 0%nat
    ∧ clears submitted = []
    ∧ get refreshed "addonSlug" = get r "addonSlug"
    ∧ get refreshed "apiState" = JRef (apiState (props c))
    ∧ (∀ k, k ≠ LocalState.id (localState c) →
         storage w' !! k = storage w !! k)
    ∧ pending w' = pending w.
Proof.
  intros Hrefresh Hupdate Hset Hreturns Hreview.
  pose proof (submit_fulfilled_run c r w Hrefresh Hupdate Hset Hreturns Hreview)
    as Hrun.
  simpl in Hrun.
  eexists _, [_; _; _; _], _. split; [exact Hrun |]. simpl.
  split; [reflexivity |].
  split; [reflexivity |].
  split; [reflexivity |].
  split; [apply get_insert_eq |].
  split; [rewrite get_insert_ne by done; apply get_singleton_eq |].
  split; [| done].
  intros k Hk. by rewrite lookup_delete_ne.
Qed.

Lemma submit_success_order_witness :
  ∃ w' submitted refreshed,
    submit form_r1 Fulfilled world_with_draft = (Ok form_r1, w')
    ∧ trace w' =
        trace world_with_draft ++ submitted ++
        [EvReviewSubmitted;
         EvLocalClear (LocalState.id (localState form_r1));
         EvRefreshAddon refreshed]
    ∧ completions submitted = 0%nat
    ∧ clears submitted = []
    ∧ get refreshed "addonSlug" = get review_r1 "addonSlug"
    ∧ get refreshed "apiState" = JRef (apiState (props form_r1))
    ∧ (∀ k, k ≠ LocalState.id (localState form_r1) →
         storage w' !! k = storage world_with_draft !! k)
    ∧ pending w' = pending world_with_draft.
Proof.
  apply (submit_success_order form_r1 review_r1 world_with_draft);
    reflexivity.
Defined.

(** *** Editing *)

(** An edit, and then the clock reaching a time at which its save is due:
    the save is the last thing to happen, and the entry of the form then
    holds the edited body. *)
Lemma advance_after_edit c value w t :
  debounce (props c) = Some defaultDebounce →
  Forall (λ u, deadline u ≤ now w + 800) (pending w) →
  now w + 800 ≤ t →
  ∃ w1 w2 earlier,
    onBodyInput c value w
      = (Ok (setState c {[ "reviewBody" := JStr value ]}), w1)
    ∧ trace w1 = trace w
    ∧ storage w1 = storage w
    ∧ advance t w1 = (Ok tt, w2)
    ∧ trace w2 =
        trace w ++ earlier ++
        [EvLocalSave (LocalState.id (localState c))
           {[ "reviewBody" := JStr value ]}]
    ∧ storage w2 !! LocalState.id (localState c)
        = Some {[ "reviewBody" := JStr value ]}
    ∧ pending w2 = [].
Proof.
  intros Hdebounce Hpending Ht.
  pose proof (onBodyInput_run c value w Hdebounce) as Hedit.
  set (others := filter (λ u, owner u ≠ nextDebounced w) (pending w)) in *.
  set (timer := {| owner := nextDebounced w; deadline := now w + 800;
                   callback := SaveStateTo (LocalState.id (localState c));
                   argument := {[ "reviewBody" := JStr value ]} |}) in *.
  assert (Forall (λ u, deadline u ≤ now w + 800) others) as Hothers
    by by apply Forall_filter_keep.
  rewrite (enqueue_last timer others Hothers) in Hedit.
  assert (Forall (λ u, deadline u ≤ t) (others ++ [timer])) as Hdue.
  { apply Forall_app. split.
    - eapply Forall_impl; [exact Hothers |]. simpl. intros u Hu. lia.
    - repeat constructor. simpl. lia. }
  match type of Hedit with
  | _ = (_, ?w1') => set (w1 := w1') in *
  end.
  destruct (advance_run t w1) as (w2 & Hadvance & Htrace & Hqueue & _).
  pose proof Hadvance as Hfire. unfold advance in Hfire.
  cbn [pending set_pending w1] in Hfire, Htrace, Hqueue.
  rewrite (filter_all _ _ Hdue) in Hfire, Htrace.
  rewrite filter_none in Hqueue
    by (eapply Forall_impl; [exact Hdue |]; simpl; intros u Hu Hn; done).
  exists w1, w2, (map fired others).
  split; [exact Hedit |]. split; [done |]. split; [done |].
  split; [exact Hadvance |].
  split; [rewrite Htrace; simpl; by rewrite map_app |].
  split; [by eapply fire_all_last | exact Hqueue].
Qed.

(** Until 800 ms have passed since an edit, its save has not happened: the
    component state has the new body at once, while the store and the
    trace are as before and the save is waiting in the timer queue. *)
Theorem no_save_before_800ms c value w t :
  debounce (props c) = Some defaultDebounce →
  Forall (λ u, ¬ (deadline u ≤ t)) (pending w) →
  t < now w + 800 →
  ∃ c' w',
    edit_then_advance c value t w = (Ok c', w')
    ∧ get (state c') "reviewBody" = JStr value
    ∧ storage w' = storage w
    ∧ trace w' = trace w
    ∧ Exists (λ u, deadline u = now w + 800
                   ∧ fired u = EvLocalSave (LocalState.id (localState c))
                                 {[ "reviewBody" := JStr value ]})
        (pending w').
Proof.
  intros Hdebounce Hpending Ht.
  pose proof (onBodyInput_run c value w Hdebounce) as Hedit.
  set (others := filter (λ u, owner u ≠ nextDebounced w) (pending w)) in *.
  set (timer := {| owner := nextDebounced w; deadline := now w + 800;
                   callback := SaveStateTo (LocalState.id (localState c));
                   argument := {[ "reviewBody" := JStr value ]} |}) in *.
  assert (Forall (λ u, ¬ (deadline u ≤ t)) (enqueue timer others)) as Hnone.
  { apply Forall_enqueue; [simpl; lia | by apply Forall_filter_keep]. }
  match type of Hedit with
  | _ = (_, ?w1') => set (w1 := w1') in *
  end.
  destruct (advance_run t w1) as (w2 & Hadvance & Htrace & Hqueue & _).
  cbn [pending set_pending w1] in Htrace, Hqueue.
  rewrite filter_none in Htrace
    by (eapply Forall_impl; [exact Hnone |]; simpl; tauto).
  rewrite (filter_all _ _ Hnone) in Hqueue.
  assert (storage w2 = storage w) as Hstore.
  { unfold advance in Hadvance. cbn [pending set_pending w1] in Hadvance.
    rewrite filter_none in Hadvance
      by (eapply Forall_impl; [exact Hnone |]; simpl; tauto).
    simpl in Hadvance. unfold ret in Hadvance. by inversion Hadvance. }
  exists (setState c {[ "reviewBody" := JStr value ]}), w2.
  split.
  { unfold edit_then_advance. rewrite (bind_ok _ _ _ _ _ Hedit).
    unfold bind. by rewrite Hadvance. }
  split; [apply get_spread_override, lookup_singleton_eq |].
  split; [exact Hstore |].
  split; [rewrite Htrace; simpl; by rewrite app_nil_r |].
  rewrite Hqueue. clear. induction others as [| u others IH]; simpl.
  - by left.
  - destruct (deadline u <=? now w + 800); [by right | by left].
Qed.

Lemma no_save_before_800ms_witness :
  ∃ c' w',
    edit_then_advance form_r1 "great" 799 world_with_draft = (Ok c', w')
    ∧ get (state c') "reviewBody" = JStr "great"
    ∧ storage w' = storage world_with_draft
    ∧ trace w' = trace world_with_draft
    ∧ Exists (λ u, deadline u = now world_with_draft + 800
                   ∧ fired u = EvLocalSave (LocalState.id (localState form_r1))
                                 {[ "reviewBody" := JStr "great" ]})
        (pending w').
Proof.
  apply (no_save_before_800ms form_r1 "great" world_with_draft 799).
  - reflexivity.
  - constructor.
  - reflexivity.
Defined.

(** A draft that was typed and saved is what a later mount of the same
    form recovers: after the first render, which shows the supplied body,
    the state and the textarea hold the typed text. *)
Theorem edit_survives_remount c r create value w t :
  debounce (props c) = Some defaultDebounce →
  review (props c) = Some r →
  review_unusable (Some r) = false →
  createLocalState (props c) = Some create →
  localState c = create ("AddonReview:" +:+ to_string (get r "id")) →
  Forall (λ u, deadline u ≤ now w + 800) (pending w) →
  now w + 800 ≤ t →
  ∃ m w',
    edit_then_remount c value t w = (Ok m, w')
    ∧ rendered_body (first_render m) = Some (AVal (get r "body"))
    ∧ get (state (instance m)) "reviewBody" = JStr value
    ∧ rendered_body (settled_render m) = Some (AVal (JStr value)).
Proof.
  intros Hdebounce Hreview Husable Hcreate Hls Hpending Ht.
  destruct (advance_after_edit c value w t Hdebounce Hpending Ht)
    as (w1 & w2 & earlier & Hedit & _ & _ & Hadvance & _ & Hstored & _).
  destruct (mount_run (props c) r create w2 Hreview Husable Hcreate)
    as (first & settled & Hmount & Hfirst & _ & Hsettled & _).
  simpl in Hmount, Hsettled. rewrite <- Hls, Hstored in Hmount, Hsettled.
  assert (get (spread ({[ "reviewBody" := get r "body" ]} : obj)
                 {[ "reviewBody" := JStr value ]}) "reviewBody" = JStr value)
    as Hbody by apply get_spread_override, lookup_singleton_eq.
  eexists _, _. split.
  { unfold edit_then_remount, edit_then_advance.
    unfold bind at 1. unfold bind at 1. rewrite Hedit.
    unfold bind at 1. rewrite Hadvance. unfold ret. exact Hmount. }
  simpl. split; [exact Hfirst |]. split; [exact Hbody |].
  by rewrite Hsettled, Hbody.
Qed.

Lemma edit_survives_remount_witness :
  ∃ m w',
    edit_then_remount form_r1 "great addon" 801 initial_world = (Ok m, w')
    ∧ rendered_body (first_render m) = Some (AVal (get review_r1 "body"))
    ∧ get (state (instance m)) "reviewBody" = JStr "great addon"
    ∧ rendered_body (settled_render m) = Some (AVal (JStr "great addon")).
Proof.
  apply (edit_survives_remount form_r1 review_r1 defaultLocalStateCreator
           "great addon" initial_world 801);
    try reflexivity.
  - constructor.
  - vm_compute. discriminate.
Defined.



(** *** A typing session *)

Lemma sorted_filter_split l t :
  StronglySorted (λ a b : Timeout, deadline a ≤ deadline b) l →
  filter (λ u, deadline u ≤ t) l ++ filter (λ u, ¬ (deadline u ≤ t)) l = l.
Proof.
  induction 1 as [| u l _ IH Hu]; [done |].
  destruct (decide (deadline u ≤ t)) as [Hdue | Hlate].
  - rewrite (filter_cons_True (λ u, deadline u ≤ t)) by done.
    rewrite (filter_cons_False (λ u, ¬ (deadline u ≤ t))) by tauto.
    simpl. by rewrite IH.
  - rewrite (filter_cons_False (λ u, deadline u ≤ t)) by done.
    rewrite (filter_cons_True (λ u, ¬ (deadline u ≤ t))) by done.
    rewrite filter_none, (filter_all (λ u, ¬ (deadline u ≤ t))); [done | |];
      (eapply Forall_impl; [exact Hu |]; simpl; intros; lia).
Qed.

Lemma sorted_filter (P : Timeout → Prop) `{∀ u, Decision (P u)} l :
  StronglySorted (λ a b : Timeout, deadline a ≤ deadline b) l →
  StronglySorted (λ a b : Timeout, deadline a ≤ deadline b) (filter P l).
Proof.
  induction 1 as [| u l _ IH Hu]; [constructor |].
  rewrite filter_cons. destruct (decide (P u)); [| done].
  constructor; [done |]. by apply Forall_filter_keep.
Qed.

Lemma sorted_snoc l t :
  StronglySorted (λ a b : Timeout, deadline a ≤ deadline b) l →
  Forall (λ u, deadline u ≤ deadline t) l →
  StronglySorted (λ a b : Timeout, deadline a ≤ deadline b) (l ++ [t]).
Proof.
  intros Hsorted Hle. apply StronglySorted_app.
  split; [| split; [done | repeat constructor]].
  intros u t' Hu Ht'. apply list_elem_of_singleton in Ht' as ->.
  by eapply Forall_forall in Hle.
Qed.

Lemma replay_app t1 t2 store :
  replay (t1 ++ t2) store = replay t2 (replay t1 store).
Proof. apply foldl_app. Qed.

(** The store after a run of timers is the store before with their saves
    applied. *)
Lemma fire_all_storage ts :
  ∀ w w', fire_all ts w = (Ok tt, w') →
          storage w' = replay (map fired ts) (storage w).
Proof.
  induction ts as [| [fn d [id] arg] ts IH]; intros w w'.
  - simpl. unfold ret. by intros [= <-].
  - simpl. unfold bind at 1. unfold LocalState.save, bind, emit. simpl.
    intros Hrest. by rewrite (IH _ _ Hrest).
Qed.

Lemma advance_storage t w w' :
  advance t w = (Ok tt, w') →
  storage w' =
    replay (map fired (filter (λ u, deadline u ≤ t) (pending w))) (storage w).
Proof.
  unfold advance. intros Hfire. by rewrite (fire_all_storage _ _ _ Hfire).
Qed.

Lemma due_saves_cons id delay value edits :
  due_saves id ((delay, value) :: edits)
    = EvLocalSave id {[ "reviewBody" := JStr value ]} :: due_saves id edits.
Proof. reflexivity. Qed.

(** While the user types, what has been saved so far and what is waiting
    in the queue together are, in order, the saves that were waiting at the
    start and then one save per edit. *)
Lemma type_all_trace edits :
  ∀ c w,
    debounce (props c) = Some defaultDebounce →
    Forall (λ e, 0 ≤ fst e) edits →
    timers_ok w →
    queue_sorted w →
    ∃ c' w' evs,
      type_all c edits w = (Ok c', w')
      ∧ trace w' = trace w ++ evs
      ∧ timers_ok w'
      ∧ queue_sorted w'
      ∧ evs ++ map fired (pending w')
          = map fired (pending w)
            ++ due_saves (LocalState.id (localState c)) edits
      ∧ storage w' = replay evs (storage w)
      ∧ get (state c') "reviewBody"
          = default (get (state c) "reviewBody")
              ((λ e, JStr (snd e)) <$> last edits).
Proof.
  induction edits as [| [delay value] edits IH];
    intros c w Hdebounce Hdelays [Howner Hdue] Hsorted.
  - exists c, w, []. simpl. rewrite !app_nil_r. by repeat split.
  - apply Forall_cons in Hdelays as [Hdelay Hdelays]. simpl in Hdelay.
    destruct (advance_run (now w + delay) w)
      as (w1 & Hwait & Htrace1 & Hqueue1 & Hnow1 & Hnext1).
    pose proof (advance_storage _ _ _ Hwait) as Hstore1.
    pose proof (onBodyInput_run c value w1 Hdebounce) as Hedit.
    assert (Forall (λ u, (owner u < nextDebounced w1)%nat) (pending w1))
      as Howner1.
    { rewrite Hqueue1, Hnext1. by apply Forall_filter_keep. }
    assert (Forall (λ u, deadline u ≤ now w1 + 800) (pending w1)) as Hdue1.
    { rewrite Hqueue1, Hnow1. apply Forall_filter_keep.
      eapply Forall_impl; [exact Hdue |]. simpl. intros u Hu. lia. }
    assert (StronglySorted (λ a b : Timeout, deadline a ≤ deadline b)
              (pending w1)) as Hsorted1.
    { rewrite Hqueue1. by apply sorted_filter. }
    rewrite (filter_all (λ u, owner u ≠ nextDebounced w1)) in Hedit
      by (eapply Forall_impl; [exact Howner1 |]; simpl; intros u Hu; lia).
    rewrite enqueue_last in Hedit by exact Hdue1.
    match type of Hedit with
    | _ = (Ok ?c1', ?w2') => set (c1 := c1') in *; set (w2 := w2') in *
    end.
    destruct (IH c1 w2)
      as (c' & w' & evs & Hrest & Htrace & Hok & Hsorted' & Hall & Hstore
          & Hstate).
    { exact Hdebounce. }
    { exact Hdelays. }
    { split; simpl.
      - apply Forall_app. split; [| repeat constructor; simpl; lia].
        eapply Forall_impl; [exact Howner1 |]. simpl. intros u Hu. lia.
      - apply Forall_app. split; [exact Hdue1 | by repeat constructor]. }
    { unfold queue_sorted. simpl. by apply sorted_snoc. }
    exists c', w', (map fired (filter (λ u, deadline u ≤ now w + delay)
                                 (pending w)) ++ evs).
    split.
    { simpl. unfold wait. unfold bind at 1. rewrite Hwait.
      rewrite (bind_ok _ _ _ _ _ Hedit). exact Hrest. }
    split.
    { rewrite Htrace. simpl. rewrite Htrace1. by rewrite <- app_assoc. }
    split; [exact Hok |]. split; [exact Hsorted' |].
    split.
    { rewrite <- app_assoc, Hall. simpl pending. rewrite map_app.
      rewrite Hqueue1, due_saves_cons. simpl.
      rewrite !app_assoc, <- map_app, sorted_filter_split by exact Hsorted.
      by rewrite <- app_assoc. }
    split.
    { rewrite replay_app, Hstore. simpl storage. by rewrite Hstore1. }
    rewrite Hstate. simpl state.
    rewrite (get_spread_override _ _ _ (JStr value))
      by apply lookup_singleton_eq.
    destruct edits as [| e edits']; [done |].
    rewrite last_cons_cons.
    destruct (last (e :: edits')) eqn:Hlast; [done |].
    by apply last_None in Hlast.
Qed.

(** A typing session followed by an idle period saves every edit: the
    saves come one per edit, in the order of the edits and each with the
    text of its edit, and nothing else is called.  The store and the
    component state end with the text of the last edit. *)
Theorem saves_follow_edits c edits w :
  debounce (props c) = Some defaultDebounce →
  Forall (λ e, 0 ≤ fst e) edits →
  pending w = [] →
  ∃ c' w',
    type_then_idle c edits w = (Ok c', w')
    ∧ trace w' = trace w ++ due_saves (LocalState.id (localState c)) edits
    ∧ pending w' = []
    ∧ ∀ e, last edits = Some e →
           storage w' !! LocalState.id (localState c)
             = Some {[ "reviewBody" := JStr (snd e) ]}
           ∧ get (state c') "reviewBody" = JStr (snd e).
Proof.
  intros Hdebounce Hdelays Hempty.
  destruct (type_all_trace edits c w Hdebounce Hdelays)
    as (c' & w1 & evs & Hrun & Htrace & [_ Hdue] & _ & Hall & Hstore & Hstate).
  { unfold timers_ok. rewrite Hempty. by split. }
  { unfold queue_sorted. rewrite Hempty. constructor. }
  rewrite Hempty in Hall. simpl in Hall.
  destruct (advance_run (now w1 + 800) w1)
    as (w' & Hwait & Htrace' & Hqueue' & _).
  pose proof (advance_storage _ _ _ Hwait) as Hstore'.
  rewrite (filter_all _ _ Hdue) in Htrace', Hstore'.
  rewrite filter_none in Hqueue'
    by (eapply Forall_impl; [exact Hdue |]; simpl; intros u Hu Hn; done).
  exists c', w'.
  split.
  { unfold type_then_idle. rewrite (bind_ok _ _ _ _ _ Hrun).
    unfold wait. unfold bind. by rewrite Hwait. }
  split; [by rewrite Htrace', Htrace, <- app_assoc, Hall |].
  split; [exact Hqueue' |].
  intros e Hlast. split.
  - rewrite Hstore', Hstore, <- replay_app, Hall.
    apply last_Some in Hlast as [edits' ->].
    unfold due_saves. rewrite map_app, replay_app. simpl.
    apply lookup_insert_eq.
  - by rewrite Hstate, Hlast.
Qed.

Lemma saves_follow_edits_witness :
  ∃ c' w',
    type_then_idle form_r1 two_edits initial_world = (Ok c', w')
    ∧ trace w' =
        trace initial_world
        ++ due_saves (LocalState.id (localState form_r1)) two_edits
    ∧ pending w' = []
    ∧ ∀ e, last two_edits = Some e →
           storage w' !! LocalState.id (localState form_r1)
             = Some {[ "reviewBody" := JStr (snd e) ]}
           ∧ get (state c') "reviewBody" = JStr (snd e).
Proof.
  apply (saves_follow_edits form_r1 two_edits initial_world).
  - reflexivity.
  - repeat constructor; vm_compute; discriminate.
  - reflexivity.
Defined.

(** *** Submitting, and what comes after *)

(** Timers that belong to other forms do not touch the entry of this
    one. *)
Lemma replay_fired_other id ts :
  Forall (λ u, callback u ≠ SaveStateTo id) ts →
  ∀ store, replay (map fired ts) store !! id = store !! id.
Proof.
  induction 1 as [| [fn d [id'] arg] ts Hu _ IH]; intros store; [done |].
  change (replay (map fired ts) (<[id' := arg]> store) !! id = store !! id).
  rewrite IH. apply lookup_insert_ne. simpl in Hu. congruence.
Qed.

(** When no save of the form is pending at the time of a successful
    submit whose completion callback returns, the draft is gone for good:
    a mount with the same props at any later time starts from the supplied
    review, whatever is in the component state or was stored before. *)
Theorem submit_then_remount_starts_fresh c r create w t :
  refreshAddon (props c) = Some external →
  updateReviewText (props c) = Some external →
  setDenormalizedReview (props c) = Some external →
  onReviewSubmitted (props c) = returns →
  review (props c) = Some r →
  review_unusable (Some r) = false →
  createLocalState (props c) = Some create →
  localState c = create ("AddonReview:" +:+ to_string (get r "id")) →
  Forall (λ u, callback u ≠ SaveStateTo (LocalState.id (localState c)))
    (pending w) →
  ∃ m w',
    submit_then_remount c t w = (Ok m, w')
    ∧ state (instance m) = {[ "reviewBody" := get r "body" ]}
    ∧ rendered_body (first_render m) = Some (AVal (get r "body"))
    ∧ rendered_body (settled_render m) = Some (AVal (get r "body"))
    ∧ storage w' !! LocalState.id (localState c) = None.
Proof.
  intros Hrefresh Hupdate Hset Hreturns Hreview Husable Hcreate Hls Hothers.
  pose proof (submit_fulfilled_run c r w Hrefresh Hupdate Hset Hreturns Hreview)
    as Hrun.
  simpl in Hrun.
  match type of Hrun with
  | _ = (_, ?w1') => set (w1 := w1') in *
  end.
  assert (storage w1 !! LocalState.id (localState c) = None) as Hgone
    by apply lookup_delete_eq.
  assert (pending w1 = pending w) as Hqueue by reflexivity.
  clearbody w1.
  destruct (advance_run t w1) as (w2 & Hadvance & _).
  assert (storage w2 !! LocalState.id (localState c) = None) as Hgone2.
  { rewrite (advance_storage _ _ _ Hadvance), replay_fired_other; [done |].
    rewrite Hqueue. by apply Forall_filter_keep. }
  destruct (mount_run (props c) r create w2 Hreview Husable Hcreate)
    as (first & settled & Hmount & Hfirst & _ & Hsettled & _).
  simpl in Hmount, Hsettled. rewrite <- Hls, Hgone2 in Hmount, Hsettled.
  eexists _, _. split.
  { unfold submit_then_remount. rewrite (bind_ok _ _ _ _ _ Hrun).
    rewrite (bind_ok _ _ _ _ _ Hadvance). exact Hmount. }
  simpl. split; [done |]. split; [done |].
  split; [by rewrite Hsettled, get_singleton_eq | exact Hgone2].
Qed.

Lemma submit_then_remount_starts_fresh_witness :
  ∃ m w',
    submit_then_remount form_r1_typed 5000 world_with_draft = (Ok m, w')
    ∧ state (instance m) = {[ "reviewBody" := get review_r1 "body" ]}
    ∧ rendered_body (first_render m) = Some (AVal (get review_r1 "body"))
    ∧ rendered_body (settled_render m) = Some (AVal (get review_r1 "body"))
    ∧ storage w' !! LocalState.id (localState form_r1_typed) = None.
Proof.
  apply (submit_then_remount_starts_fresh form_r1_typed review_r1
           defaultLocalStateCreator world_with_draft 5000);
    try reflexivity.
  constructor.
Defined.



(** A submit that failed can be repeated as it is: the second submit
    dispatches the same review and sends the same parameters as the first,
    and only the one that succeeds clears the entry and calls the
    completion callback, which is taken to return. *)
Theorem failed_submit_can_be_retried c r w error :
  refreshAddon (props c) = Some external →
  updateReviewText (props c) = Some external →
  setDenormalizedReview (props c) = Some external →
  onReviewSubmitted (props c) = returns →
  review (props c) = Some r →
  ∃ w' evs params updated,
    submit_retry c error w = (Ok c, w')
    ∧ trace w' = trace w ++ evs
    ∧ remote_calls evs = [params; params]
    ∧ dispatched evs = [updated; updated]
    ∧ clears evs = [LocalState.id (localState c)]
    ∧ completions evs = 1%nat
    ∧ storage w' !! LocalState.id (localState c) = None.
Proof.
  intros Hrefresh Hupdate Hset Hreturns Hreview.
  pose proof (submit_rejected_run c r w error Hrefresh Hupdate Hset Hreview)
    as Hfail. simpl in Hfail.
  match type of Hfail with
  | _ = (_, ?w1') => set (w1 := w1') in *
  end.
  pose proof (submit_fulfilled_run c r w1 Hrefresh Hupdate Hset Hreturns
                Hreview)
    as Hretry. simpl in Hretry.
  eexists _, _, _, _. split.
  { unfold submit_retry, settled. unfold bind at 1. rewrite Hfail. simpl.
    exact Hretry. }
  simpl. split; [by rewrite <- app_assoc |].
  split; [reflexivity |]. split; [reflexivity |]. split; [reflexivity |].
  split; [reflexivity |]. apply lookup_delete_eq.
Qed.

Lemma failed_submit_can_be_retried_witness :
  ∃ w' evs params updated,
    submit_retry form_r1_typed (JStr "HTTP 500") world_with_draft
      = (Ok form_r1_typed, w')
    ∧ trace w' = trace world_with_draft ++ evs
    ∧ remote_calls evs = [params; params]
    ∧ dispatched evs = [updated; updated]
    ∧ clears evs = [LocalState.id (localState form_r1_typed)]
    ∧ completions evs = 1%nat
    ∧ storage w' !! LocalState.id (localState form_r1_typed) = None.
Proof.
  apply (failed_submit_can_be_retried form_r1_typed review_r1
           world_with_draft (JStr "HTTP 500")); reflexivity.
Defined.

(** Picking a rating while typing does not lose the text: the review that
    the selection dispatches carries the typed body along with the new
    rating, so when that review comes back as the review of the next props
    the component state still holds the typed text. *)
Theorem rating_keeps_typed_body c value rating nextProps w :
  debounce (props c) = Some defaultDebounce →
  setDenormalizedReview (props c) = Some external →
  value ≠ EmptyString →
  let updated : obj :=
    <["rating" := JNum rating]>
    (<["body" := JStr value]> (default ∅ (review (props c)))) in
  review nextProps = Some updated →
  ∃ c1 w1 w2 c2,
    onBodyInput c value w = (Ok c1, w1)
    ∧ onSelectRating c1 rating w1 = (Ok c1, w2)
    ∧ trace w2 = trace w1 ++ [EvSetDenormalizedReview updated]
    ∧ componentWillReceiveProps c1 nextProps w2 = (Ok c2, w2)
    ∧ get (state c2) "reviewBody" = JStr value
    ∧ pending w2 = pending w1.
Proof.
  intros Hdebounce Hset Hvalue updated Hnext.
  pose proof (onBodyInput_run c value w Hdebounce) as Hedit.
  match type of Hedit with
  | _ = (Ok ?c1', ?w1') => set (c1 := c1') in *; set (w1 := w1') in *
  end.
  pose proof (onSelectRating_run c1 rating w1 Hset) as Hrate.
  assert (js_or (get (state c1) "reviewBody") JUndefined = JStr value) as Hbody.
  { unfold c1. simpl.
    rewrite (get_spread_override _ _ _ (JStr value))
      by apply lookup_singleton_eq.
    unfold js_or. simpl. destruct (String.eqb_spec value EmptyString); done. }
  rewrite Hbody in Hrate.
  eexists c1, w1, _, _.
  split; [exact Hedit |]. split; [exact Hrate |]. split; [reflexivity |].
  unfold componentWillReceiveProps. rewrite Hnext.
  split; [reflexivity |]. simpl.
  split; [| done].
  rewrite (get_spread_override _ _ _ (get updated "body"))
    by apply lookup_singleton_eq.
  unfold updated. rewrite get_insert_ne by done. apply get_insert_eq.
Qed.

Lemma rating_keeps_typed_body_witness :
  ∃ c1 w1 w2 c2,
    onBodyInput form_r1 "great addon" initial_world = (Ok c1, w1)
    ∧ onSelectRating c1 4 w1 = (Ok c1, w2)
    ∧ trace w2 =
        trace w1 ++
        [EvSetDenormalizedReview
           (<["rating" := JNum 4]>
            (<["body" := JStr "great addon"]> review_r1))]
    ∧ componentWillReceiveProps c1 props_r1_rated w2 = (Ok c2, w2)
    ∧ get (state c2) "reviewBody" = JStr "great addon"
    ∧ pending w2 = pending w1.
Proof.
  apply (rating_keeps_typed_body form_r1 "great addon" 4 props_r1_rated
           initial_world); try reflexivity.
  discriminate.
Defined.

(** *** The connected form *)

(** Whatever own props the connected form is given, [mapDispatchToProps]
    leaves none of the three injected functions undefined: an own
    [refreshAddon] or [updateReviewText] is kept, while
    [setDenormalizedReview] always goes through [dispatch].  So with a
    review in the props a submit of the connected form reaches the remote
    call, which gets the API state of the redux store. *)
Theorem connected_submit_reaches_remote s ownProps c r w :
  props c = connected s ownProps →
  review ownProps = Some r →
  mapped_setDenormalizedReview (mapDispatchToProps ownProps) = ThroughDispatch
  ∧ (∀ f, refreshAddon ownProps = Some f →
          mapped_refreshAddon (mapDispatchToProps ownProps) = OwnProp f)
  ∧ (∀ f, updateReviewText ownProps = Some f →
          mapped_updateReviewText (mapDispatchToProps ownProps) = OwnProp f)
  ∧ ∃ sub w' evs,
      onSubmit c w = (Ok (c, sub), w')
      ∧ trace w' = trace w ++ evs
      ∧ remote_calls evs = [sub_params sub]
      ∧ get (sub_params sub) "apiState" = JRef (api s).
Proof.
  intros Hprops Hreview.
  split; [reflexivity |].
  split; [intros f Hf; simpl; by rewrite Hf |].
  split; [intros f Hf; simpl; by rewrite Hf |].
  assert (∀ f, as_prop (own_or_default f) = Some external) as Hmapped.
  { intros [[] |]; reflexivity. }
  pose proof (onSubmit_ok c r w) as Hsync.
  rewrite Hprops in Hsync at 1 2 3 4. simpl in Hsync.
  rewrite !Hmapped in Hsync.
  specialize (Hsync eq_refl eq_refl eq_refl Hreview).
  destruct (get_submitParams (props c) r (get (state c) "reviewBody"))
    as (_ & _ & _ & Hapi).
  eexists _, _, _. split; [exact Hsync |]. simpl.
  split; [reflexivity |]. split; [reflexivity |].
  rewrite Hapi. by rewrite Hprops.
Qed.

Lemma connected_submit_reaches_remote_witness :
  mapped_setDenormalizedReview (mapDispatchToProps bare_props) = ThroughDispatch
  ∧ (∀ f, refreshAddon bare_props = Some f →
          mapped_refreshAddon (mapDispatchToProps bare_props) = OwnProp f)
  ∧ (∀ f, updateReviewText bare_props = Some f →
          mapped_updateReviewText (mapDispatchToProps bare_props) = OwnProp f)
  ∧ ∃ sub w' evs,
      onSubmit connected_form initial_world = (Ok (connected_form, sub), w')
      ∧ trace w' = trace initial_world ++ evs
      ∧ remote_calls evs = [sub_params sub]
      ∧ get (sub_params sub) "apiState" = JRef (api {| api := 5 |}).
Proof.
  apply (connected_submit_reaches_remote {| api := 5 |} bare_props
           connected_form review_r1 initial_world); reflexivity.
Defined.

End AddonReviewLifecycle.
